(** * resize_compress: a shallow embedding of [resize_compress.py]

    The script walks one folder, re-encodes every eligible image as a JPEG
    whose longer side is at most [max_side], and chooses between a sequential
    loop and a process pool from the kind of volume the folder lives on.

    The embedding follows the source function by function:
    - [is_network_path]  (lines 35-54),
    - [process_image]    (lines 57-83),
    - [main]             (lines 86-127).

    Python [float] is IEEE 754 binary64; its arithmetic is modelled with the
    bit-exact [SpecFloat] operations of the standard library.  Pillow, pathlib,
    [os], [ctypes] and [concurrent.futures] are outside the script: they enter
    as the fields of two interfaces, [Platform] and [Imaging].  Command-line
    parsing is outside too: [main] starts from the parsed arguments. *)

From Stdlib Require Import ZArith String Ascii List Bool Lia.
From Stdlib Require Import Floats.SpecFloat.
From stdpp Require Import base option list gmap strings pretty.

Local Open Scope Z_scope.

(** ** Python exceptions and the error monad *)

(** An instance of Python's [Exception]: its class name and [str(e)]. *)
Record exn := Exn { exn_class : string; exn_msg : string }.

Inductive result (A : Type) : Type :=
| Ok (a : A)
| Raise (e : exn).
Arguments Ok {A} a.
Arguments Raise {A} e.

Definition rbind {A B} (r : result A) (k : A -> result B) : result B :=
  match r with
  | Ok a => k a
  | Raise e => Raise e
  end.

Declare Scope py_scope.
Delimit Scope py_scope with py.
Notation "x <- c ;; k" := (rbind c (fun x => k))
  (at level 100, c at next level, right associativity) : py_scope.

(** ** binary64 arithmetic as Python performs it *)

Module PyFloat.

Definition prec : Z := 53.
Definition emax : Z := 1024.

Definition float := spec_float.

Definition ZeroDivisionError := Exn "ZeroDivisionError" "division by zero".
Definition OverflowError_div :=
  Exn "OverflowError" "integer division result too large for a float".
Definition OverflowError_conv :=
  Exn "OverflowError" "int too large to convert to float".
Definition OverflowError_int :=
  Exn "OverflowError" "cannot convert float infinity to integer".
Definition ValueError_nan :=
  Exn "ValueError" "cannot convert float NaN to integer".

(** [a / b] on two [int]s: the quotient of the two integers, correctly
    rounded to the nearest double, ties to even. *)
Definition int_truediv (a b : Z) : result float :=
  match a, b with
  | _, Z0 => Raise ZeroDivisionError
  | Z0, _ => Ok (S754_zero (b <? 0))
  | _, _ =>
      let x := S754_finite (a <? 0) (Z.to_pos (Z.abs a)) 0 in
      let y := S754_finite (b <? 0) (Z.to_pos (Z.abs b)) 0 in
      match SFdiv prec emax x y with
      | S754_infinity _ => Raise OverflowError_div
      | q => Ok q
      end
  end.

(** [float(n)] as used by mixed [int * float] arithmetic. *)
Definition of_int (n : Z) : result float :=
  match binary_normalize prec emax n 0 false with
  | S754_infinity _ => Raise OverflowError_conv
  | x => Ok x
  end.

(** [n * x] with [n] an [int] and [x] a [float]. *)
Definition int_mul (n : Z) (x : float) : result float :=
  (fn <- of_int n ;; Ok (SFmul prec emax fn x))%py.

(** [1.0] *)
Definition one : float := S754_finite false (2 ^ 52) (-52).

(** [x < n] with [n] an [int] that a double represents exactly. *)
Definition lt_int (x : float) (n : Z) : bool :=
  SFltb x (binary_normalize prec emax n 0 false).

(** [int(x)]: truncation toward zero. *)
Definition to_int (x : float) : result Z :=
  match x with
  | S754_zero _ => Ok 0
  | S754_infinity _ => Raise OverflowError_int
  | S754_nan => Raise ValueError_nan
  | S754_finite s m e =>
      let a := match e with
               | Z0 => Zpos m
               | Zpos p => Zpos m * 2 ^ e
               | Zneg p => Zpos m / 2 ^ (Zpos p)
               end in
      Ok (if s then - a else a)
  end.

End PyFloat.

(** ** The proportional resize (process_image, lines 69-72) *)

(** The size handed to [img.resize], or [None] when the image is kept:
    [ratio = max_side / max(w, h)], and [(int(w * ratio), int(h * ratio))]
    when [ratio < 1]. *)
Definition resize_target (w h max_side : Z) : result (option (Z * Z)) :=
  (ratio <- PyFloat.int_truediv max_side (Z.max w h) ;;
   if PyFloat.lt_int ratio 1 then
     fw <- PyFloat.int_mul w ratio ;;
     nw <- PyFloat.to_int fw ;;
     fh <- PyFloat.int_mul h ratio ;;
     nh <- PyFloat.to_int fh ;;
     Ok (Some (nw, nh))
   else Ok None)%py.

(** ** Strings and paths *)

Abbreviation bytes := (list Byte.byte).

(** [str.lower] on the ASCII range. *)
Definition ascii_lower (c : ascii) : ascii :=
  let n := N_of_ascii c in
  if ((65 <=? n) && (n <=? 90))%N then ascii_of_N (n + 32) else c.

Fixpoint lower (s : string) : string :=
  match s with
  | EmptyString => EmptyString
  | String c s' => String (ascii_lower c) (lower s')
  end.

(** [s.rfind('.')]: the index of the last dot, scanning from index [i]. *)
Fixpoint rfind_dot_from (i : nat) (s : string) (found : option nat) : option nat :=
  match s with
  | EmptyString => found
  | String c s' =>
      rfind_dot_from (S i) s' (if Ascii.eqb c "." then Some i else found)
  end.

Definition rfind_dot (s : string) : option nat := rfind_dot_from 0 s None.

(** The dot that separates stem and suffix of a file name, as pathlib's
    [PurePath.suffix] and [PurePath.stem] choose it: the last dot, unless it
    is the first or the last character of the name. *)
Definition split_point (name : string) : option nat :=
  match rfind_dot name with
  | Some i =>
      if ((0 <? i) && (i <? String.length name - 1))%nat then Some i else None
  | None => None
  end.

Definition name_suffix (name : string) : string :=
  match split_point name with
  | Some i => substring i (String.length name - i) name
  | None => ""
  end.

Definition name_stem (name : string) : string :=
  match split_point name with
  | Some i => substring 0 i name
  | None => name
  end.

(** A path is the list of its components below the anchor. *)
Abbreviation Path := (list string).

Definition Path_name (p : Path) : string := List.last p ""%string.
Definition Path_parent (p : Path) : Path := removelast p.
Definition Path_suffix (p : Path) : string := name_suffix (Path_name p).
Definition Path_stem (p : Path) : string := name_stem (Path_name p).
Definition joinpath (p : Path) (child : string) : Path := p ++ [child].
Infix "//" := joinpath (at level 40, left associativity).

(** ** The file system *)

Record fs := FS {
  fs_dirs : gset Path;
  fs_files : gmap Path bytes
}.

Definition Path_is_dir (σ : fs) (p : Path) : bool := bool_decide (p ∈ fs_dirs σ).
Definition Path_is_file (σ : fs) (p : Path) : bool :=
  bool_decide (is_Some (fs_files σ !! p)).
Definition Path_exists (σ : fs) (p : Path) : bool :=
  Path_is_dir σ p || Path_is_file σ p.

(** Code that reads or changes the file system and may raise. *)
Definition io (A : Type) : Type := fs -> fs * result A.

Definition io_ret {A} (a : A) : io A := fun σ => (σ, Ok a).
Definition io_lift {A} (r : result A) : io A := fun σ => (σ, r).
Definition io_bind {A B} (c : io A) (k : A -> io B) : io B :=
  fun σ =>
    match c σ with
    | (σ', Ok a) => k a σ'
    | (σ', Raise e) => (σ', Raise e)
    end.

Declare Scope io_scope.
Delimit Scope io_scope with io.
Notation "x <- c ;; k" := (io_bind c (fun x => k))
  (at level 100, c at next level, right associativity) : io_scope.

(** ** What the script asks of its environment *)

(** pathlib, [os], [ctypes], [time] and [concurrent.futures]. *)
Class Platform := {
  (** [str(path)] and [path.drive] *)
  Path_str : Path -> string;
  Path_drive : Path -> string;
  (** [ctypes.windll.kernel32.GetDriveTypeW]; raises where there is no
      [windll] *)
  GetDriveTypeW : string -> result Z;
  (** [path.iterdir()], in the order the system lists the entries *)
  Path_iterdir : fs -> Path -> list Path;
  (** [path.mkdir(parents=True, exist_ok=True)] *)
  Path_mkdir : Path -> io unit;
  (** [os.cpu_count()] *)
  os_cpu_count : option Z;
  (** the order in which [as_completed] yields the submitted tasks *)
  as_completed : list (Path * Path) -> list (Path * Path);
  (** the text of [f"{elapsed:.2f}"] *)
  elapsed_text : string;

  iterdir_NoDup σ d : NoDup (Path_iterdir σ d);
  iterdir_child σ d p :
    p ∈ Path_iterdir σ d -> Path_parent p = d /\ Path_exists σ p = true;
  mkdir_files p σ σ' r : Path_mkdir p σ = (σ', r) -> fs_files σ' = fs_files σ;
  mkdir_dirs p σ σ' r : Path_mkdir p σ = (σ', r) -> fs_dirs σ ⊆ fs_dirs σ';
  mkdir_ok p σ σ' : Path_mkdir p σ = (σ', Ok tt) -> p ∈ fs_dirs σ';
  cpu_count_pos n : os_cpu_count = Some n -> 0 < n;
  as_completed_perm tasks : as_completed tasks ≡ₚ tasks
}.

(** Values of the keyword arguments of [img.save]. *)
Inductive pyval :=
| VStr (s : string)
| VInt (n : Z)
| VBool (b : bool)
| VBytes (b : bytes).

Inductive resample := LANCZOS.

(** Pillow: [Image.open], [ImageOps.exif_transpose], [Image.convert],
    [Image.resize] and [Image.save]. *)
Class Imaging := {
  image : Type;
  img_size : image -> Z * Z;
  img_mode : image -> string;
  img_info : image -> gmap string bytes;
  Image_open : fs -> Path -> result image;
  exif_transpose : image -> result image;
  convert : image -> string -> result image;
  resize : image -> Z * Z -> resample -> result image;
  (** the bytes of the JPEG that [save] writes when it succeeds *)
  jpeg_encode : image -> gmap string pyval -> bytes;
  save : image -> Path -> gmap string pyval -> io unit;

  save_ok img p kw σ σ' :
    save img p kw σ = (σ', Ok tt) ->
    fs_dirs σ' = fs_dirs σ /\
    fs_files σ' = <[p := jpeg_encode img kw]> (fs_files σ)
}.

(** ** Defaults (lines 31-32) *)

Definition DEFAULT_MAX_SIDE : Z := 1280.
Definition DEFAULT_JPEG_QUALITY : Z := 65.

(** ** is_network_path (lines 35-54) *)

Definition DRIVE_REMOTE : Z := 4.

Definition nonempty (s : string) : bool := negb (String.eqb s "").

Section is_network_path.
Context {P : Platform}.

(** lines 43-45: the drive pathlib found, or else the first two characters
    when the second is a colon. *)
Definition drive_of (path : Path) : string :=
  let s := Path_str path in
  let drive := Path_drive path in
  if negb (nonempty drive) && (2 <=? String.length s)%nat
     && bool_decide (String.get 1 s = Some ":"%char)
  then substring 0 2 s else drive.

(** The body of the [try]. *)
Definition is_network_path_try (path : Path) : result bool :=
  let s := Path_str path in
  if String.prefix "\\" s then Ok true
  else
    let drive := drive_of path in
    if negb (nonempty drive) then Ok false
    else
      (t <- GetDriveTypeW (drive +:+ "\") ;;
       Ok (t =? DRIVE_REMOTE))%py.

Definition is_network_path (path : Path) : bool :=
  match is_network_path_try path with
  | Ok b => b
  | Raise _ => false
  end.
End is_network_path.

(** ** process_image (lines 57-83) *)

(** [dict(format="JPEG", quality=jpeg_quality, optimize=True)], then the two
    conditional entries of lines 76-79. *)
Definition save_kwargs_base (jpeg_quality : Z) : gmap string pyval :=
  {[ "format"%string := VStr "JPEG";
     "quality"%string := VInt jpeg_quality;
     "optimize"%string := VBool true ]}.

Definition add_exif (exif_data : bytes) (kw : gmap string pyval) : gmap string pyval :=
  match exif_data with
  | [] => kw
  | _ => <["exif"%string := VBytes exif_data]> kw
  end.

Definition add_icc (icc_profile : option bytes) (kw : gmap string pyval)
  : gmap string pyval :=
  match icc_profile with
  | None | Some [] => kw
  | Some icc => <["icc_profile"%string := VBytes icc]> kw
  end.

Definition save_kwargs (exif_data : bytes) (icc_profile : option bytes)
    (jpeg_quality : Z) : gmap string pyval :=
  add_icc icc_profile (add_exif exif_data (save_kwargs_base jpeg_quality)).

Section process_image.
Context {P : Platform} {I : Imaging}.

(** lines 66-67 *)
Definition normalize_mode (img : image) : result image :=
  if bool_decide (img_mode img ∈ ["RGBA"; "LA"; "P"]%string)
  then convert img "RGB" else Ok img.

(** lines 69-72 *)
Definition resize_step (img : image) (max_side : Z) : result image :=
  let '(w, h) := img_size img in
  (target <- resize_target w h max_side ;;
   match target with
   | Some new_size => resize img new_size LANCZOS
   | None => Ok img
   end)%py.

(** lines 63-72: everything between the capture of the metadata and the
    first change to the file system. *)
Definition prepare (img : image) (max_side : Z) : result image :=
  (img <- exif_transpose img ;;
   img <- normalize_mode img ;;
   resize_step img max_side)%py.

(** The body of the [try], lines 60-80. *)
Definition process_image_try (input_path output_path : Path)
    (max_side jpeg_quality : Z) : io unit :=
  fun σ =>
    (img <- io_lift (Image_open σ input_path) ;;
     let exif_data := default [] (img_info img !! "exif"%string) in
     let icc_profile := img_info img !! "icc_profile"%string in
     img <- io_lift (prepare img max_side) ;;
     _ <- Path_mkdir (Path_parent output_path) ;;
     save img output_path (save_kwargs exif_data icc_profile jpeg_quality))%io σ.

Definition ok_line (input_path output_path : Path) : string :=
  "[OK] " +:+ Path_name input_path +:+ " -> " +:+ Path_name output_path.

Definition err_line (input_path : Path) (e : exn) : string :=
  "[ERR] " +:+ Path_name input_path +:+ ": " +:+ exn_msg e.

Definition process_image (input_path output_path : Path)
    (max_side jpeg_quality : Z) (σ : fs) : fs * string :=
  match process_image_try input_path output_path max_side jpeg_quality σ with
  | (σ', Ok _) => (σ', ok_line input_path output_path)
  | (σ', Raise e) => (σ', err_line input_path e)
  end.
End process_image.

(** ** main (lines 86-127) *)

(** What a run does, as seen from outside. *)
Inductive event :=
| Print (line : string)
| Call (input_path output_path : Path)
    (** [process_image] is entered on the calling thread *)
| Return (input_path output_path : Path) (line : string)
    (** and returns [line] *)
| Executor (max_workers : Z)
    (** [ProcessPoolExecutor(max_workers=...)] *)
| Submit (input_path output_path : Path)
| Completed (input_path output_path : Path) (line : string).
    (** [as_completed] yields the future of this task; [future.result()] is
        [line] *)

Definition exts : list string :=
  [".jpg"; ".jpeg"; ".png"; ".tif"; ".tiff"; ".webp"; ".heic"; ".heif"; ".bmp"]%string.

Definition eligible (σ : fs) (p : Path) : bool :=
  bool_decide (lower (Path_suffix p) ∈ exts) && Path_is_file σ p.

(** The outcome of a run: the file system it leaves, what it did, and the
    exit status of the process. *)
Record run := Run {
  run_fs : fs;
  run_events : list event;
  run_status : Z
}.

Section main.
Context {P : Platform} {I : Imaging}.

(** line 103 *)
Definition eligible_files (σ : fs) (input_dir : Path) : list Path :=
  List.filter (eligible σ) (Path_iterdir σ input_dir).

(** [output_dir / f"{p.stem}.jpg"] *)
Definition output_for (output_dir : Path) (p : Path) : Path :=
  output_dir // (Path_stem p +:+ ".jpg").

(** lines 113-115 *)
Fixpoint sequential (files : list Path) (output_dir : Path)
    (max_side jpeg_quality : Z) (σ : fs) : fs * list event :=
  match files with
  | [] => (σ, [])
  | p :: rest =>
      let out := output_for output_dir p in
      let '(σ1, line) := process_image p out max_side jpeg_quality σ in
      let '(σ2, evs) := sequential rest output_dir max_side jpeg_quality σ1 in
      (σ2, Call p out :: Return p out line :: Print line :: evs)
  end.

(** lines 123-124: the futures, in the order in which they complete; each
    transform is taken to act on the file system at once, when it
    completes. *)
Fixpoint collect (done : list (Path * Path)) (max_side jpeg_quality : Z)
    (σ : fs) : fs * list event :=
  match done with
  | [] => (σ, [])
  | (inp, out) :: rest =>
      let '(σ1, line) := process_image inp out max_side jpeg_quality σ in
      let '(σ2, evs) := collect rest max_side jpeg_quality σ1 in
      (σ2, Completed inp out line :: Print line :: evs)
  end.

(** [os.cpu_count() or 1] *)
Definition cpu_count_or_1 : Z :=
  match os_cpu_count with
  | None | Some 0 => 1
  | Some n => n
  end.

Definition not_found_line (input_dir : Path) : string :=
  "Error: input folder not found: " +:+ Path_str input_dir.
Definition no_images_line (input_dir : Path) : string :=
  "No images found in: " +:+ Path_str input_dir.
Definition network_mode_line (input_dir : Path) : string :=
  "Mode: Network path detected. Processing sequentially in: "
  +:+ Path_str input_dir.
Definition local_mode_line (cores : Z) (input_dir : Path) : string :=
  "Mode: Local drive. Processing in parallel with " +:+ pretty cores
  +:+ " cores in: " +:+ Path_str input_dir.
Definition elapsed_line : string :=
  "Total elapsed time: " +:+ elapsed_text +:+ " seconds".

(** [main] from line 95 on. *)
Definition main (input_dir : Path) (max_side jpeg_quality : Z) (σ : fs) : run :=
  if negb (Path_exists σ input_dir) || negb (Path_is_dir σ input_dir) then
    Run σ [Print (not_found_line input_dir)] 1
  else
    let output_dir := input_dir // "compressed" in
    let files := eligible_files σ input_dir in
    match files with
    | [] => Run σ [Print (no_images_line input_dir)] 0
    | _ =>
        let smb_mode := is_network_path input_dir in
        if smb_mode then
          let '(σ', evs) := sequential files output_dir max_side jpeg_quality σ in
          Run σ' (Print (network_mode_line input_dir) :: evs ++ [Print elapsed_line]) 0
        else
          let cores := cpu_count_or_1 in
          let tasks := map (fun p => (p, output_for output_dir p)) files in
          let '(σ', evs) := collect (as_completed tasks) max_side jpeg_quality σ in
          Run σ'
            (Print (local_mode_line cores input_dir)
               :: Executor cores
               :: map (fun t => Submit t.1 t.2) tasks
               ++ evs ++ [Print elapsed_line])
            0
    end.
End main.

(** ** Reading a run *)

(** The transform results, with the file each belongs to. *)
Definition result_of (ev : event) : option (Path * string) :=
  match ev with
  | Return p _ line | Completed p _ line => Some (p, line)
  | _ => None
  end.
Definition results (tr : list event) : list (Path * string) := omap result_of tr.

(** The input and output path of every transform a run starts or submits. *)
Definition task_of (ev : event) : option (Path * Path) :=
  match ev with
  | Call p out | Submit p out => Some (p, out)
  | _ => None
  end.
Definition tasks_of (tr : list event) : list (Path * Path) := omap task_of tr.

(** The largest number of transforms that are entered and have not returned,
    starting from [cur] of them. *)
Fixpoint peak_in_flight (cur : nat) (tr : list event) : nat :=
  match tr with
  | [] => cur
  | Call _ _ :: tr' => Nat.max cur (peak_in_flight (S cur) tr')
  | Return _ _ _ :: tr' => Nat.max cur (peak_in_flight (Nat.pred cur) tr')
  | _ :: tr' => peak_in_flight cur tr'
  end.

(** Does the run touch a process pool? *)
Definition pool_event (ev : event) : bool :=
  match ev with
  | Executor _ | Submit _ _ | Completed _ _ _ => true
  | _ => false
  end.

Definition executors (tr : list event) : list Z :=
  omap (fun ev => match ev with Executor n => Some n | _ => None end) tr.

(** Every result is printed by the very next event. *)
Fixpoint streamed (tr : list event) : bool :=
  match tr with
  | [] => true
  | (Return _ _ line | Completed _ _ line) :: tr' =>
      match tr' with
      | Print line' :: _ => String.eqb line line' && streamed tr'
      | _ => false
      end
  | _ :: tr' => streamed tr'
  end.

(** ** Reading a transform *)

(** The keyword arguments built from the metadata that lines 61-62 capture
    from the image as it was opened. *)
Definition captured_kwargs {I : Imaging} (img : image) (jpeg_quality : Z)
  : gmap string pyval :=
  save_kwargs (default [] (img_info img !! "exif"%string))
              (img_info img !! "icc_profile"%string) jpeg_quality.

(** Where an exception can come from inside the [try] of [process_image]. *)
Inductive step_raises {P : Platform} {I : Imaging}
    (σ : fs) (input_path output_path : Path) (max_side jpeg_quality : Z)
  : exn -> Prop :=
| raises_decode e :
    Image_open σ input_path = Raise e ->
    step_raises σ input_path output_path max_side jpeg_quality e
| raises_orient img e :
    Image_open σ input_path = Ok img ->
    exif_transpose img = Raise e ->
    step_raises σ input_path output_path max_side jpeg_quality e
| raises_convert img img1 e :
    Image_open σ input_path = Ok img ->
    exif_transpose img = Ok img1 ->
    normalize_mode img1 = Raise e ->
    step_raises σ input_path output_path max_side jpeg_quality e
| raises_resize img img1 img2 e :
    Image_open σ input_path = Ok img ->
    exif_transpose img = Ok img1 ->
    normalize_mode img1 = Ok img2 ->
    resize_step img2 max_side = Raise e ->
    step_raises σ input_path output_path max_side jpeg_quality e
| raises_mkdir img img' σ1 e :
    Image_open σ input_path = Ok img ->
    prepare img max_side = Ok img' ->
    Path_mkdir (Path_parent output_path) σ = (σ1, Raise e) ->
    step_raises σ input_path output_path max_side jpeg_quality e
| raises_save img img' σ1 σ2 kw e :
    Image_open σ input_path = Ok img ->
    prepare img max_side = Ok img' ->
    Path_mkdir (Path_parent output_path) σ = (σ1, Ok tt) ->
    save img' output_path kw σ1 = (σ2, Raise e) ->
    kw = captured_kwargs img jpeg_quality ->
    step_raises σ input_path output_path max_side jpeg_quality e.

(** The block a captured payload contributes to the output: itself when it
    is not empty, nothing otherwise. *)
Definition carried (captured : option bytes) : option pyval :=
  match captured with
  | Some (b :: bs) => Some (VBytes (b :: bs))
  | _ => None
  end.

(** The lines a run prints, in order. *)
Definition printed_line (ev : event) : option string :=
  match ev with
  | Print line => Some line
  | _ => None
  end.
Definition printed (tr : list event) : list string := omap printed_line tr.

(** A string without a dot. *)
Fixpoint dotless (s : string) : bool :=
  match s with
  | EmptyString => true
  | String c s' => negb (Ascii.eqb c ".") && dotless s'
  end.

(** A transform that fails before line 74: while opening, orienting,
    converting or resizing. *)
Definition fails_early {I : Imaging} (σ : fs) (input_path : Path) (max_side : Z)
  : Prop :=
  exists e,
    Image_open σ input_path = Raise e \/
    exists img, Image_open σ input_path = Ok img /\ prepare img max_side = Raise e.

(** What the script takes for granted of a failing [img.save]: it touches no
    file but its destination. *)
Definition failing_save_is_local {I : Imaging} : Prop :=
  forall img p kw σ σ' e,
    save img p kw σ = (σ', Raise e) ->
    forall q, q <> p -> fs_files σ' !! q = fs_files σ !! q.

(** ** A small concrete environment

    A miniature codec and two platforms, to run the model on concrete
    folders.  A stored image is its width, its height, a mode tag and then
    its EXIF block; the written JPEG has the same layout. *)

Module Toy.

Definition byte_of_Z (z : Z) : Byte.byte :=
  default Byte.x00 (Byte.of_N (Z.to_N (z mod 256))).
Definition Z_of_byte (b : Byte.byte) : Z := Z.of_N (Byte.to_N b).

Record toy_image := ToyImage {
  t_size : Z * Z;
  t_mode : string;
  t_info : gmap string bytes;
  t_data : bytes
}.

Definition mode_of_tag (b : Byte.byte) : string :=
  match b with
  | Byte.x00 => "RGB"
  | Byte.x01 => "RGBA"
  | Byte.x02 => "P"
  | _ => "F"
  end.

Definition info_of (exif : bytes) : gmap string bytes :=
  match exif with
  | [] => ∅
  | _ => {[ "exif"%string := exif ]}
  end.

Definition decode (b : bytes) : result toy_image :=
  match b with
  | w :: h :: tag :: exif =>
      Ok (ToyImage (Z_of_byte w, Z_of_byte h) (mode_of_tag tag) (info_of exif) [])
  | _ => Raise (Exn "UnidentifiedImageError" "cannot identify image file")
  end.

Definition open_ (σ : fs) (p : Path) : result toy_image :=
  match fs_files σ !! p with
  | Some b => decode b
  | None => Raise (Exn "FileNotFoundError" "No such file or directory")
  end.

Definition resize_ (img : toy_image) (new_size : Z * Z) (_ : resample)
  : result toy_image :=
  if (0 <? new_size.1) && (0 <? new_size.2)
  then Ok (ToyImage new_size (t_mode img) (t_info img) (t_data img))
  else Raise (Exn "ValueError" "height and width must be > 0").

Definition encode (img : toy_image) (kw : gmap string pyval) : bytes :=
  byte_of_Z (t_size img).1 :: byte_of_Z (t_size img).2 :: Byte.x00 ::
  match kw !! "exif"%string with
  | Some (VBytes exif) => exif
  | _ => []
  end.

Definition save_ (img : toy_image) (p : Path) (kw : gmap string pyval) : io unit :=
  fun σ =>
    if bool_decide (t_mode img ∈ ["RGB"; "L"; "CMYK"]%string)
    then (FS (fs_dirs σ) (<[p := encode img kw]> (fs_files σ)), Ok tt)
    else (σ, Raise (Exn "OSError" ("cannot write mode " +:+ t_mode img +:+ " as JPEG"))).

Definition imaging : Imaging.
Proof.
  refine {|
    image := toy_image;
    img_size := t_size;
    img_mode := t_mode;
    img_info := t_info;
    Image_open := open_;
    exif_transpose := Ok;
    convert := fun img m => Ok (ToyImage (t_size img) m (t_info img) (t_data img));
    resize := resize_;
    jpeg_encode := encode;
    save := save_
  |}.
  intros img p kw σ σ'. unfold save_. case_bool_decide; intros [= <-]; done.
Defined.

(** [str(path)] for a POSIX path and for a Windows path whose first
    component is the drive or the UNC share. *)
Fixpoint posix_str (p : Path) : string :=
  match p with
  | [] => ""
  | c :: p' => "/" +:+ c +:+ posix_str p'
  end.

Fixpoint windows_tail (p : Path) : string :=
  match p with
  | [] => ""
  | c :: p' => "\" +:+ c +:+ windows_tail p'
  end.

Definition windows_str (p : Path) : string :=
  match p with
  | [] => ""
  | anchor :: p' => anchor +:+ windows_tail p'
  end.

Definition windows_drive (p : Path) : string :=
  match p with
  | [] => ""
  | anchor :: _ => anchor
  end.

Definition no_windll (_ : string) : result Z :=
  Raise (Exn "AttributeError" "module 'ctypes' has no attribute 'windll'").

(** Drive [Z:] is a mapped share, every other drive a fixed disk. *)
Definition drive_type (root : string) : result Z :=
  if String.eqb root "Z:\" then Ok 4 else Ok 3.

Definition entries (σ : fs) : gset Path := fs_dirs σ ∪ dom (fs_files σ).

Definition iterdir_ (σ : fs) (d : Path) : list Path :=
  elements (filter (fun p => Path_parent p = d /\ p ≠ []) (entries σ)).

Definition mkdir_ (p : Path) : io unit :=
  fun σ => (FS ({[p]} ∪ fs_dirs σ) (fs_files σ), Ok tt).

Definition make (str drive : Path -> string) (probe : string -> result Z)
    (cpus : option positive) : Platform.
Proof.
  refine {|
    Path_str := str;
    Path_drive := drive;
    GetDriveTypeW := probe;
    Path_iterdir := iterdir_;
    Path_mkdir := mkdir_;
    os_cpu_count := Z.pos <$> cpus;
    as_completed := reverse;
    elapsed_text := "0.05"
  |}.
  - intros σ d. apply NoDup_elements.
  - intros σ d p. unfold iterdir_, entries.
    rewrite elem_of_elements, elem_of_filter.
    intros [[Hpar _] Hin]. split; [done|].
    unfold Path_exists, Path_is_dir, Path_is_file.
    apply elem_of_union in Hin as [Hin|Hin].
    + rewrite bool_decide_eq_true_2; done.
    + apply elem_of_dom in Hin. rewrite (bool_decide_eq_true_2 (is_Some _)) by done.
      apply orb_true_r.
  - intros p σ σ' r [= <- _]. done.
  - intros p σ σ' r [= <- _]. simpl. set_solver.
  - intros p σ σ' [= <-]. simpl. set_solver.
  - intros n. destruct cpus; intros [= <-]. lia.
  - intros tasks. apply reverse_Permutation.
Defined.

Import Byte.

(** A folder [pics] with a 100 x 50 JPEG carrying EXIF, a 16 x 8 RGBA PNG
    of the same stem, a text file, a TIFF in a mode JPEG cannot hold, and a
    truncated BMP. *)
Definition folder : fs :=
  FS {[ ["pics"%string] ]}
     {[ ["pics"; "a.jpg"]%string := [x64; x32; x00; x45; x78; x69; x66];
        ["pics"; "a.png"]%string := [x10; x08; x01];
        ["pics"; "notes.txt"]%string := [];
        ["pics"; "f.tif"]%string := [x10; x08; x03];
        ["pics"; "bad.bmp"]%string := [x10] ]}.

Definition vga : toy_image := ToyImage (640, 480) "RGB" ∅ [].

Definition pics : Path := ["pics"%string].
Definition compressed : Path := ["pics"; "compressed"]%string.
Definition a_jpg : Path := ["pics"; "a.jpg"]%string.
Definition bad_bmp : Path := ["pics"; "bad.bmp"]%string.
Definition a_out : Path := ["pics"; "compressed"; "a.jpg"]%string.
Definition f_out : Path := ["pics"; "compressed"; "f.jpg"]%string.

(** [a.jpg] as opened, and as scaled down to a longer side of 64. *)
Definition a_opened : toy_image :=
  ToyImage (100, 50) "RGB" {[ "exif"%string := [x45; x78; x69; x66] ]} [].
Definition a_small : toy_image :=
  ToyImage (64, 32) "RGB" {[ "exif"%string := [x45; x78; x69; x66] ]} [].

(** The folder once [compressed] exists, and once [a.jpg] is transformed. *)
Definition folder_compressed : fs :=
  FS ({[ compressed ]} ∪ fs_dirs folder) (fs_files folder).
Definition folder_a_done : fs :=
  FS (fs_dirs folder_compressed)
     (<[ a_out := [x40; x20; x00; x45; x78; x69; x66] ]> (fs_files folder)).

(** The same pictures on a network share. *)
Definition share_pics : Path := ["\\nas\photos"; "pics"]%string.
Definition share : fs :=
  FS {[ share_pics ]}
     {[ share_pics ++ ["b.JPG"%string] := [x64; x32; x00];
        share_pics ++ ["c.webp"%string] := [x10; x08; x01];
        share_pics ++ ["d.gif"%string] := [x10; x08; x00] ]}.


(** A mapped drive, a fixed disk, and a POSIX directory named [:]. *)
Definition mapped_pics : Path := ["Z:"; "pics"]%string.
Definition disk_pics : Path := ["C:"; "pics"]%string.
Definition colon : Path := [":"%string].

(** A folder without any image. *)
Definition only_notes : fs :=
  FS {[ pics ]} {[ ["pics"; "notes.txt"]%string := [] ]}.

Definition posix : Platform := make posix_str (fun _ => ""%string) no_windll (Some 4%positive).
Definition windows : Platform := make windows_str windows_drive drive_type (Some 8%positive).

(** A folder whose only image is truncated. *)
Definition only_bad : fs :=
  FS {[ pics ]}
     {[ ["pics"; "bad.bmp"]%string := [x10];
        ["pics"; "notes.txt"]%string := [] ]}.

(** A 40 x 30 picture that needs neither conversion nor resizing, as found
    in a folder of its own. *)
Definition small_jpg : Path := ["pics"; "small.JPG"]%string.
Definition small_out : Path := ["pics"; "compressed"; "small.jpg"]%string.
Definition small_folder : fs :=
  FS {[ pics ]} {[ small_jpg := [x28; x1e; x00] ]}.
Definition small_opened : toy_image := ToyImage (40, 30) "RGB" ∅ [].

End Toy.

(** ** Facts about the binary64 operations *)

Section Binary64Facts.

Import PyFloat.

Lemma fexp_normal x : -1021 <= x -> fexp prec emax x = x - 53.
Proof. unfold fexp, emin, prec, emax. lia. Qed.

Lemma digits2_pos_size p : digits2_pos p = Pos.size p.
Proof. induction p; simpl; congruence. Qed.

Lemma Zdigits2_bounds m :
  0 < m -> 2 ^ (Zdigits2 m - 1) <= m < 2 ^ Zdigits2 m.
Proof.
  destruct m as [|p|p]; try lia. intros _. simpl.
  rewrite digits2_pos_size.
  pose proof (Pos.size_gt p) as Hgt. pose proof (Pos.size_le p) as Hle.
  apply Pos2Z.pos_lt_pos in Hgt. apply Pos2Z.pos_le_pos in Hle.
  rewrite Pos2Z.inj_pow in Hgt, Hle. change (Z.pos 2) with 2 in *.
  split; [|lia].
  replace (Z.pos (Pos.size p)) with (Z.succ (Z.pos (Pos.size p) - 1)) in Hle by lia.
  rewrite Z.pow_succ_r in Hle by lia. lia.
Qed.

Lemma Zdigits2_pos m : 0 < m -> 0 < Zdigits2 m.
Proof. destruct m; simpl; lia. Qed.

(** The number of binary digits is determined by the enclosing powers. *)
Lemma Zdigits2_unique m d :
  0 < d -> 2 ^ (d - 1) <= m < 2 ^ d -> Zdigits2 m = d.
Proof.
  intros Hd [Hlo Hhi].
  assert (0 < m) as Hm by (pose proof (Z.pow_pos_nonneg 2 (d - 1)); lia).
  destruct (Zdigits2_bounds m Hm) as [Hlo' Hhi'].
  pose proof (Zdigits2_pos m Hm) as Hpos.
  destruct (Z.lt_trichotomy (Zdigits2 m) d) as [Hlt|[Heq|Hgt]]; [|done|].
  - assert (2 ^ Zdigits2 m <= 2 ^ (d - 1)) by (apply Z.pow_le_mono_r; lia). lia.
  - assert (2 ^ d <= 2 ^ (Zdigits2 m - 1)) by (apply Z.pow_le_mono_r; lia). lia.
Qed.

Lemma iter_pos_nat {A} (f : A -> A) p x :
  SpecFloat.iter_pos f p x = Nat.iter (Pos.to_nat p) f x.
Proof.
  revert x. induction p as [p IH|p IH|]; intros x.
  - rewrite Pos2Nat.inj_xI. cbn [SpecFloat.iter_pos]. rewrite !IH.
    replace (S (2 * Pos.to_nat p)) with (Pos.to_nat p + S (Pos.to_nat p))%nat by lia.
    rewrite Nat.iter_add. by rewrite Nat.iter_succ_r.
  - rewrite Pos2Nat.inj_xO. cbn [SpecFloat.iter_pos]. rewrite !IH.
    replace (2 * Pos.to_nat p)%nat with (Pos.to_nat p + Pos.to_nat p)%nat by lia.
    by rewrite Nat.iter_add.
  - done.
Qed.

Lemma shr_1_m r : 0 <= shr_m r -> shr_m (shr_1 r) = shr_m r / 2.
Proof.
  destruct r as [m rb sb]. cbn [shr_m]. intros Hm.
  destruct m as [|[p|p|]|p]; cbn [shr_1 shr_m]; try lia.
  - done.
  - apply Z.div_unique with 1; lia.
  - apply Z.div_unique with 0; lia.
  - done.
Qed.

Lemma shr_iter_m n r :
  0 <= shr_m r -> shr_m (Nat.iter n shr_1 r) = shr_m r / 2 ^ Z.of_nat n.
Proof.
  intros Hm. induction n as [|n IH].
  - simpl. by rewrite Z.div_1_r.
  - rewrite Nat2Z.inj_succ, Z.pow_succ_r by lia. simpl.
    rewrite shr_1_m.
    + rewrite IH. rewrite Z.div_div by (try apply Z.pow_pos_nonneg; lia).
      f_equal. lia.
    + rewrite IH. apply Z.div_pos; [lia|]. apply Z.pow_pos_nonneg; lia.
Qed.

Lemma shr_record_of_loc_m m l : shr_m (shr_record_of_loc m l) = m.
Proof. by destruct l as [|[]]. Qed.

(** [shr_fexp] on a mantissa in the normal range: it is cut to at most 53
    digits, dropping the low ones, and the position of the leading digit
    does not move. *)
Lemma shr_fexp_normal m e l :
  0 < m -> -1021 <= Zdigits2 m + e ->
  exists mrs e1,
    shr_fexp prec emax m e l = (mrs, e1) /\
    shr_m mrs = m / 2 ^ Z.max 0 (Zdigits2 m - 53) /\
    e1 = e + Z.max 0 (Zdigits2 m - 53) /\
    Zdigits2 (shr_m mrs) = Z.min (Zdigits2 m) 53.
Proof.
  intros Hm Hrange. unfold shr_fexp.
  rewrite fexp_normal by done.
  pose proof (Zdigits2_bounds m Hm) as [Hlo Hhi].
  pose proof (Zdigits2_pos m Hm) as Hd.
  set (d := Zdigits2 m) in *.
  replace (d + e - 53 - e) with (d - 53) by lia.
  destruct (d - 53) as [|n|n] eqn:Hn; cbn [shr].
  - eexists _, _. split; [done|]. rewrite shr_record_of_loc_m. fold d.
    replace (Z.max 0 0) with 0 by lia. rewrite Z.div_1_r. lia.
  - eexists _, _. split; [done|].
    rewrite iter_pos_nat, shr_iter_m by (rewrite shr_record_of_loc_m; lia).
    rewrite shr_record_of_loc_m, positive_nat_Z.
    replace (Z.max 0 (Z.pos n)) with (Z.pos n) by lia.
    assert (2 ^ d = 2 ^ 53 * 2 ^ Z.pos n) as Hsplit
      by (rewrite <- Z.pow_add_r by lia; f_equal; lia).
    assert (2 ^ (d - 1) = 2 ^ 52 * 2 ^ Z.pos n) as Hsplit'
      by (rewrite <- Z.pow_add_r by lia; f_equal; lia).
    assert (0 < 2 ^ Z.pos n) as Hpow by (apply Z.pow_pos_nonneg; lia).
    assert (2 ^ 52 <= m / 2 ^ Z.pos n) as Hq1
      by (apply Z.div_le_lower_bound; lia).
    assert (m / 2 ^ Z.pos n < 2 ^ 53) as Hq2
      by (apply Z.div_lt_upper_bound; lia).
    assert (Zdigits2 (m / 2 ^ Z.pos n) = 53) as Hdq
      by (apply Zdigits2_unique; [lia|]; change (53 - 1) with 52; lia).
    rewrite Hdq. repeat split; lia.
  - eexists _, _. split; [done|]. rewrite shr_record_of_loc_m. fold d.
    replace (Z.max 0 (Z.neg n)) with 0 by lia. rewrite Z.div_1_r. lia.
Qed.

Lemma round_nearest_even_bounds m l :
  m <= round_nearest_even m l <= m + 1.
Proof.
  destruct l as [|[]]; cbn [round_nearest_even]; try lia.
  destruct (Z.even m); lia.
Qed.

(** Rounding a mantissa of at least 53 digits in the normal range yields a
    normal double (53-digit mantissa) or overflows; the rounded mantissa
    [m2] is the truncated one or its successor. *)
Lemma binary_round_aux_normal s m e l :
  0 < m -> 53 <= Zdigits2 m -> -1021 <= Zdigits2 m + e ->
  exists m2 m3 e3,
    binary_round_aux prec emax s m e l =
      (if e3 <=? 971 then S754_finite s m3 e3 else S754_infinity s) /\
    m / 2 ^ (Zdigits2 m - 53) <= m2 <= m / 2 ^ (Zdigits2 m - 53) + 1 /\
    2 ^ 52 <= Z.pos m3 < 2 ^ 53 /\
    e + (Zdigits2 m - 53) <= e3 <= e + (Zdigits2 m - 53) + 1 /\
    Z.pos m3 * 2 ^ (e3 - (e + (Zdigits2 m - 53))) = m2.
Proof.
  intros Hm Hd Hrange. unfold binary_round_aux.
  destruct (shr_fexp_normal m e l Hm Hrange) as (mrs & e1 & -> & Hm1 & He1 & Hd1).
  replace (Z.max 0 (Zdigits2 m - 53)) with (Zdigits2 m - 53) in * by lia.
  replace (Z.min (Zdigits2 m) 53) with 53 in Hd1 by lia.
  pose proof (round_nearest_even_bounds (shr_m mrs) (loc_of_shr_record mrs)) as Hrne.
  set (m2 := round_nearest_even (shr_m mrs) (loc_of_shr_record mrs)) in *.
  clearbody m2.
  assert (0 <= shr_m mrs) as Hm1nn.
  { rewrite Hm1. apply Z.div_pos; [lia|]. apply Z.pow_pos_nonneg; lia. }
  assert (0 < shr_m mrs) as Hm1pos by (destruct (shr_m mrs); simpl in Hd1; lia).
  pose proof (Zdigits2_bounds _ Hm1pos) as Hb1. rewrite Hd1 in Hb1.
  change (53 - 1) with 52 in Hb1.
  assert (0 < m2) as Hm2 by lia.
  assert (Zdigits2 m2 = 53 \/ m2 = 2 ^ 53) as [Hd2|Hd2].
  { destruct (Z.eq_dec m2 (2 ^ 53)); [by right|left].
    apply Zdigits2_unique; [lia|]. change (53 - 1) with 52. lia. }
  - destruct (shr_fexp_normal m2 e1 loc_Exact Hm2) as (mrs2 & e2 & -> & Hm3 & He2 & Hd3);
      [lia|].
    rewrite Hd2 in Hm3, He2. change (Z.max 0 (53 - 53)) with 0 in *.
    rewrite Z.div_1_r in Hm3. rewrite Hm3.
    destruct m2 as [|p|p]; try lia.
    exists (Z.pos p), p, e2. rewrite <- Hm1.
    replace (e2 - (e + (Zdigits2 m - 53))) with 0 by lia.
    change (53 - 1) with 52 in *.
    repeat split; try lia.
    all: apply Zdigits2_bounds in Hm2; rewrite Hd2 in Hm2;
      change (53 - 1) with 52 in Hm2; lia.
  - assert (Zdigits2 m2 = 54) as Hd54 by (by rewrite Hd2).
    destruct (shr_fexp_normal m2 e1 loc_Exact Hm2) as (mrs2 & e2 & -> & Hm3 & He2 & Hd3);
      [lia|].
    rewrite Hd54 in Hm3, He2. change (Z.max 0 (54 - 53)) with 1 in *.
    rewrite Hd2 in Hm3. change (2 ^ 53 / 2 ^ 1) with (2 ^ 52) in Hm3.
    rewrite Hm3. change (2 ^ 52) with (Z.pos (2 ^ 52)%positive).
    exists m2, (2 ^ 52)%positive, e2. rewrite <- Hm1.
    replace (e2 - (e + (Zdigits2 m - 53))) with 1 by lia.
    repeat split; lia.
Qed.

(** A mantissa of at most 53 digits in the normal range is kept as it is. *)
Lemma shr_fexp_short m e l :
  0 < m -> Zdigits2 m <= 53 -> -1021 <= Zdigits2 m + e ->
  shr_fexp prec emax m e l = (shr_record_of_loc m l, e).
Proof.
  intros Hm Hd Hrange. unfold shr_fexp. rewrite fexp_normal by done.
  replace (Zdigits2 m + e - 53 - e) with (Zdigits2 m - 53) by lia.
  destruct (Zdigits2 m - 53) as [| |] eqn:E; cbn [shr]; [done|lia|done].
Qed.

Lemma loc_of_shr_record_of_loc m l :
  loc_of_shr_record (shr_record_of_loc m l) = l.
Proof. by destruct l as [|[]]. Qed.

(** Rounding an exact value whose mantissa has 53 digits changes nothing. *)
Lemma binary_round_aux_exact s (m : positive) e :
  Zdigits2 (Z.pos m) = 53 -> -1074 <= e <= 971 ->
  binary_round_aux prec emax s (Z.pos m) e loc_Exact = S754_finite s m e.
Proof.
  intros Hd He. unfold binary_round_aux.
  rewrite shr_fexp_short by lia.
  rewrite loc_of_shr_record_of_loc, shr_record_of_loc_m. cbn [round_nearest_even].
  rewrite shr_fexp_short by lia. rewrite shr_record_of_loc_m.
  unfold emax, prec. by destruct (Z.leb_spec e (1024 - 53)); [|lia].
Qed.

Lemma Pos_iter_xO (m d : positive) :
  Z.pos (Pos.iter xO m d) = Z.pos m * 2 ^ Z.pos d.
Proof.
  induction d as [|d IH] using Pos.peano_ind.
  - cbn [Pos.iter]. lia.
  - rewrite Pos.iter_succ, Pos2Z.inj_xO, IH, Pos2Z.inj_succ, Z.pow_succ_r by lia. lia.
Qed.

(** [float(n)] for [0 < n < 2^53]: the integer itself, with a mantissa
    stretched to 53 digits. *)
Lemma of_int_exact n :
  0 < n < 2 ^ 53 ->
  exists mn : positive,
    of_int n = Ok (S754_finite false mn (Zdigits2 n - 53)) /\
    Z.pos mn = n * 2 ^ (53 - Zdigits2 n) /\
    2 ^ 52 <= Z.pos mn < 2 ^ 53.
Proof.
  intros [Hpos Hlt]. destruct n as [|n|n]; try lia.
  pose proof (Zdigits2_bounds (Z.pos n) Hpos) as [Hlo Hhi].
  pose proof (Zdigits2_pos (Z.pos n) Hpos) as Hd.
  assert (Zdigits2 (Z.pos n) <= 53) as Hd53.
  { destruct (Z_lt_le_dec 53 (Zdigits2 (Z.pos n))); [|lia].
    assert (2 ^ 53 <= 2 ^ (Zdigits2 (Z.pos n) - 1)) by (apply Z.pow_le_mono_r; lia).
    lia. }
  unfold of_int, binary_normalize, binary_round, shl_align.
  change (Z.pos (digits2_pos n)) with (Zdigits2 (Z.pos n)).
  rewrite Z.add_0_r, Z.sub_0_r, fexp_normal by lia.
  set (d := Zdigits2 (Z.pos n)) in *.
  assert (forall mz : positive,
            Z.pos mz = Z.pos n * 2 ^ (53 - d) ->
            2 ^ 52 <= Z.pos mz < 2 ^ 53) as Hbounds.
  { intros mz ->.
    assert (2 ^ 52 = 2 ^ (d - 1) * 2 ^ (53 - d)) as ->
      by (rewrite <- Z.pow_add_r by lia; f_equal; lia).
    assert (2 ^ 53 = 2 ^ d * 2 ^ (53 - d)) as ->
      by (rewrite <- Z.pow_add_r by lia; f_equal; lia).
    assert (0 < 2 ^ (53 - d)) by (apply Z.pow_pos_nonneg; lia). nia. }
  assert (forall mz : positive,
            Z.pos mz = Z.pos n * 2 ^ (53 - d) ->
            binary_round_aux prec emax false (Z.pos mz) (d - 53) loc_Exact
              = S754_finite false mz (d - 53)) as Hround.
  { intros mz Hmz. apply binary_round_aux_exact; [|lia].
    apply Zdigits2_unique; [lia|]. change (53 - 1) with 52. by apply Hbounds. }
  destruct (d - 53) as [|k|k] eqn:Hk.
  - assert (Z.pos n = Z.pos n * 2 ^ (53 - d)) as Hmz
      by (replace (53 - d) with 0 by lia; lia).
    rewrite (Hround n Hmz). exists n. by split; [|split; [|apply Hbounds]].
  - lia.
  - assert (Z.pos (Pos.iter xO n k) = Z.pos n * 2 ^ (53 - d)) as Hmz
      by (rewrite Pos_iter_xO; f_equal; f_equal; lia).
    rewrite (Hround _ Hmz). eexists. by split; [|split; [|apply Hbounds]].
Qed.

(** The integer quotient computed by [SFdiv] for two positive integers whose
    sizes are not astronomically apart: at least 53 digits of it. *)
Lemma SFdiv_core_normal (a b : positive) :
  let k := Zdigits2 (Z.pos a) - Zdigits2 (Z.pos b) in
  -1021 <= k ->
  exists q l,
    SFdiv_core_binary prec emax (Z.pos a) 0 (Z.pos b) 0 = (q, Z.min (k - 53) 0, l) /\
    q = (Z.pos a * 2 ^ (- Z.min (k - 53) 0)) / Z.pos b /\
    53 <= Zdigits2 q /\
    k <= Zdigits2 q + Z.min (k - 53) 0 <= k + 1.
Proof.
  intros k Hk. unfold SFdiv_core_binary.
  rewrite !Z.add_0_r, !Z.sub_0_r. fold k.
  rewrite fexp_normal by done.
  set (e' := Z.min (k - 53) 0).
  replace (0 - e') with (- e') by lia.
  assert (0 <= - e') as Hs by lia.
  set (m' := match - e' with
             | 0 => Z.pos a
             | Z.pos _ => Z.shiftl (Z.pos a) (- e')
             | Z.neg _ => 0
             end).
  assert (m' = Z.pos a * 2 ^ (- e')) as Hm'.
  { subst m'. destruct (- e') as [|s|s] eqn:Hse.
    - simpl. lia.
    - by rewrite Z.shiftl_mul_pow2.
    - lia. }
  pose proof (Z.div_eucl_eq m' (Z.pos b) ltac:(lia)) as Heucl.
  pose proof (Z.mod_pos_bound m' (Z.pos b) ltac:(lia)) as Hmod.
  unfold Z.modulo in Hmod.
  assert (m' / Z.pos b = fst (Z.div_eucl m' (Z.pos b))) as Hdiv by done.
  destruct (Z.div_eucl m' (Z.pos b)) as [q r]. cbn [fst snd] in *.
  exists q, (new_location (Z.pos b) r). split; [done|].
  rewrite <- Hm'. split; [done|].
  pose proof (Zdigits2_bounds (Z.pos a) ltac:(lia)) as [Ha1 Ha2].
  pose proof (Zdigits2_bounds (Z.pos b) ltac:(lia)) as [Hb1 Hb2].
  pose proof (Zdigits2_pos (Z.pos a) ltac:(lia)) as Hda.
  pose proof (Zdigits2_pos (Z.pos b) ltac:(lia)) as Hdb.
  set (da := Zdigits2 (Z.pos a)) in *. set (db := Zdigits2 (Z.pos b)) in *.
  (* 2^(k - e' - 1) <= q < 2^(k - e' + 1) *)
  assert (0 <= k - e' - 1) as Hexp by lia.
  assert (0 < 2 ^ (- e')) as Hpow by (apply Z.pow_pos_nonneg; lia).
  assert (2 ^ (k - e' - 1) * 2 ^ db = 2 ^ (da - 1) * 2 ^ (- e')) as E1.
  { rewrite <- !Z.pow_add_r by lia. f_equal. lia. }
  assert (2 ^ (k - e' + 1) * 2 ^ (db - 1) = 2 ^ da * 2 ^ (- e')) as E2.
  { rewrite <- !Z.pow_add_r by lia. f_equal. lia. }
  assert (0 < 2 ^ (k - e' - 1)) as Hp1 by (apply Z.pow_pos_nonneg; lia).
  assert (0 < 2 ^ (k - e' + 1)) as Hp2 by (apply Z.pow_pos_nonneg; lia).
  assert (2 ^ (k - e' - 1) <= q) as Hq1.
  { rewrite <- Hdiv. apply Z.div_le_lower_bound; [lia|]. nia. }
  assert (q < 2 ^ (k - e' + 1)) as Hq2.
  { rewrite <- Hdiv. apply Z.div_lt_upper_bound; [lia|]. nia. }
  assert (0 < q) as Hq by lia.
  assert (Zdigits2 q = k - e' \/ Zdigits2 q = k - e' + 1) as Hdq.
  { destruct (Z_lt_le_dec q (2 ^ (k - e'))) as [Hlt|Hge].
    - left. apply Zdigits2_unique; [lia|]. lia.
    - right. apply Zdigits2_unique; [lia|].
      replace (k - e' + 1 - 1) with (k - e') by lia. lia. }
  lia.
Qed.

Lemma lt_int_1 x : lt_int x 1 = SFltb x one.
Proof. done. Qed.

(** A normal positive double whose exponent is at least that of [1.0] is not
    below [1.0]. *)
Lemma not_lt_one m e :
  2 ^ 52 <= Z.pos m < 2 ^ 53 -> -52 <= e ->
  SFltb (S754_finite false m e) one = false.
Proof.
  intros Hm He. unfold SFltb, one, SFcompare.
  destruct (Z.compare_spec e (-52)) as [->|Hlt|Hgt]; [|lia|done].
  rewrite Pos.compare_cont_spec. cbn [Pos.switch_Eq].
  destruct (Pos.compare_spec m (2 ^ 52)) as [_|Hlt|_]; [done| |done].
  apply Pos2Z.pos_lt_pos in Hlt. lia.
Qed.

(** [a / b] for [0 < b <= a]: a double that is not below [1.0], unless the
    quotient is too large for a double, which takes [a >= 2^1023]. *)
Lemma int_truediv_ge_one a b :
  0 < b <= a ->
  (exists x, int_truediv a b = Ok x /\ lt_int x 1 = false) \/
  (2 ^ 1023 <= a /\ int_truediv a b = Raise OverflowError_div).
Proof.
  intros [Hb Hab].
  destruct a as [|a|a]; try lia. destruct b as [|b|b]; try lia.
  unfold int_truediv. cbn [Z.ltb Z.compare SFdiv xorb].
  change (Z.to_pos (Z.abs (Z.pos a))) with a.
  change (Z.to_pos (Z.abs (Z.pos b))) with b.
  pose proof (Zdigits2_bounds (Z.pos a) ltac:(lia)) as [Ha1 Ha2].
  pose proof (Zdigits2_bounds (Z.pos b) ltac:(lia)) as [Hb1 Hb2].
  pose proof (Zdigits2_pos (Z.pos b) ltac:(lia)) as Hdb.
  assert (Zdigits2 (Z.pos b) <= Zdigits2 (Z.pos a)) as Hdd.
  { destruct (Z_lt_le_dec (Zdigits2 (Z.pos a)) (Zdigits2 (Z.pos b))); [|done].
    assert (2 ^ Zdigits2 (Z.pos a) <= 2 ^ (Zdigits2 (Z.pos b) - 1))
      by (apply Z.pow_le_mono_r; lia). lia. }
  destruct (SFdiv_core_normal a b ltac:(lia)) as (q & l & -> & Hq & Hdq & Hqe).
  set (k := Zdigits2 (Z.pos a) - Zdigits2 (Z.pos b)) in *.
  set (e' := Z.min (k - 53) 0) in *.
  assert (0 < 2 ^ (- e')) as Hpow by (apply Z.pow_pos_nonneg; lia).
  assert (2 ^ (- e') <= q) as Hqlo.
  { rewrite Hq. apply Z.div_le_lower_bound; [lia|]. nia. }
  assert (0 < q) as Hqpos by lia.
  assert (1 <= Zdigits2 q + e') as Hlead.
  { destruct (Z_lt_le_dec (Zdigits2 q + e') 1) as [Hlt|]; [|done].
    pose proof (Zdigits2_bounds q Hqpos) as [_ Hq2].
    assert (2 ^ Zdigits2 q <= 2 ^ (- e')) by (apply Z.pow_le_mono_r; lia). lia. }
  destruct (binary_round_aux_normal false q e' l Hqpos Hdq ltac:(lia))
    as (m2 & m3 & e3 & -> & _ & Hm3 & He3 & _).
  destruct (Z.leb_spec e3 971) as [Hfin|Hinf].
  - left. eexists. split; [done|]. rewrite lt_int_1. apply not_lt_one; [done|lia].
  - right. split; [|done].
    destruct (Z_lt_le_dec (Z.pos a) (2 ^ 1023)) as [Hsmall|]; [|done].
    assert (Zdigits2 (Z.pos a) <= 1023).
    { destruct (Z_lt_le_dec 1023 (Zdigits2 (Z.pos a))); [|lia].
      assert (2 ^ 1023 <= 2 ^ (Zdigits2 (Z.pos a) - 1))
        by (apply Z.pow_le_mono_r; lia). lia. }
    lia.
Qed.

(** [a / b] for [0 < a] and [0 < b < 2^53], when it is below [1.0]: a normal
    double with an exponent of at most -53. *)
Lemma int_truediv_below_one a b ratio :
  0 < a -> 0 < b < 2 ^ 53 ->
  int_truediv a b = Ok ratio -> lt_int ratio 1 = true ->
  exists (m : positive) e,
    ratio = S754_finite false m e /\
    2 ^ 52 <= Z.pos m < 2 ^ 53 /\ -105 <= e <= -53.
Proof.
  intros Ha [Hb Hb53].
  destruct a as [|a|a]; try lia. destruct b as [|b|b]; try lia.
  unfold int_truediv. cbn [Z.ltb Z.compare SFdiv xorb].
  change (Z.to_pos (Z.abs (Z.pos a))) with a.
  change (Z.to_pos (Z.abs (Z.pos b))) with b.
  pose proof (Zdigits2_pos (Z.pos a) ltac:(lia)) as Hda.
  pose proof (Zdigits2_bounds (Z.pos b) ltac:(lia)) as [Hb1 Hb2].
  assert (Zdigits2 (Z.pos b) <= 53) as Hdb.
  { destruct (Z_lt_le_dec 53 (Zdigits2 (Z.pos b))); [|lia].
    assert (2 ^ 53 <= 2 ^ (Zdigits2 (Z.pos b) - 1)) by (apply Z.pow_le_mono_r; lia).
    lia. }
  destruct (SFdiv_core_normal a b ltac:(lia)) as (q & l & -> & Hq & Hdq & Hqe).
  set (k := Zdigits2 (Z.pos a) - Zdigits2 (Z.pos b)) in *.
  set (e' := Z.min (k - 53) 0) in *.
  assert (0 <= q) as Hqnn.
  { rewrite Hq. apply Z.div_pos; [|lia].
    apply Z.mul_nonneg_nonneg; [lia|]. apply Z.pow_nonneg. lia. }
  assert (0 < q) as Hqpos by (destruct q; simpl in Hdq; lia).
  destruct (binary_round_aux_normal false q e' l Hqpos Hdq ltac:(lia))
    as (m2 & m3 & e3 & -> & _ & Hm3 & He3 & _).
  destruct (Z.leb_spec e3 971) as [Hfin|Hinf]; [|done].
  intros [= <-]. rewrite lt_int_1. unfold SFltb, one, SFcompare.
  destruct (Z.compare_spec e3 (-52)) as [->|Hlt|Hgt]; [| |done].
  - rewrite Pos.compare_cont_spec. cbn [Pos.switch_Eq].
    destruct (Pos.compare_spec m3 (2 ^ 52)) as [_|Hlt|_]; [done| |done].
    apply Pos2Z.pos_lt_pos in Hlt. lia.
  - intros _. exists m3, e3. split; [done|]. split; [done|]. lia.
Qed.

(** A 54-digit mantissa with a zero in the last place loses that digit and
    nothing else. *)
Lemma binary_round_aux_even s (p : positive) e l :
  Zdigits2 (Z.pos p) = 53 -> -1074 <= e ->
  binary_round_aux prec emax s (Z.pos p~0) e l =
    if e + 1 <=? 971 then S754_finite s p (e + 1) else S754_infinity s.
Proof.
  intros Hd He. unfold binary_round_aux.
  assert (Zdigits2 (Z.pos p~0) = 54) as Hd54.
  { cbn [Zdigits2 digits2_pos]. cbn [Zdigits2] in Hd. lia. }
  assert (shr_fexp prec emax (Z.pos p~0) e l =
            (shr_1 (shr_record_of_loc (Z.pos p~0) l), e + 1)) as ->.
  { unfold shr_fexp. rewrite Hd54, fexp_normal by lia.
    by replace (54 + e - 53 - e) with 1 by lia. }
  assert (round_nearest_even
            (shr_m (shr_1 (shr_record_of_loc (Z.pos p~0) l)))
            (loc_of_shr_record (shr_1 (shr_record_of_loc (Z.pos p~0) l)))
          = Z.pos p) as ->.
  { by destruct l as [|[]]. }
  rewrite shr_fexp_short by lia. rewrite shr_record_of_loc_m.
  unfold emax, prec. done.
Qed.

(** [a / b] for [0 < a < b < 2^53]: a normal double below [1.0] which,
    multiplied back by [b], misses [a] by less than one unit of [b] in its
    last place. *)
Lemma int_truediv_bracket a b :
  0 < a < b -> b < 2 ^ 53 ->
  exists (m : positive) e,
    int_truediv a b = Ok (S754_finite false m e) /\
    2 ^ 52 <= Z.pos m < 2 ^ 53 /\ -105 <= e <= -53 /\
    a * 2 ^ (- e) - b < b * Z.pos m <= a * 2 ^ (- e) + b.
Proof.
  intros [Ha Hab] Hb53.
  destruct a as [|a|a]; try lia. destruct b as [|b|b]; try lia.
  unfold int_truediv. cbn [Z.ltb Z.compare SFdiv xorb].
  change (Z.to_pos (Z.abs (Z.pos a))) with a.
  change (Z.to_pos (Z.abs (Z.pos b))) with b.
  pose proof (Zdigits2_pos (Z.pos a) ltac:(lia)) as Hda.
  pose proof (Zdigits2_bounds (Z.pos a) ltac:(lia)) as [Ha1 Ha2].
  pose proof (Zdigits2_bounds (Z.pos b) ltac:(lia)) as [Hb1 Hb2].
  assert (Zdigits2 (Z.pos b) <= 53) as Hdb.
  { destruct (Z_lt_le_dec 53 (Zdigits2 (Z.pos b))); [|lia].
    assert (2 ^ 53 <= 2 ^ (Zdigits2 (Z.pos b) - 1)) by (apply Z.pow_le_mono_r; lia).
    lia. }
  assert (Zdigits2 (Z.pos a) <= Zdigits2 (Z.pos b)) as Hdab.
  { destruct (Z_lt_le_dec (Zdigits2 (Z.pos b)) (Zdigits2 (Z.pos a))); [|lia].
    assert (2 ^ Zdigits2 (Z.pos b) <= 2 ^ (Zdigits2 (Z.pos a) - 1))
      by (apply Z.pow_le_mono_r; lia). lia. }
  destruct (SFdiv_core_normal a b ltac:(lia)) as (q & l & -> & Hq & Hdq & Hqe).
  set (k := Zdigits2 (Z.pos a) - Zdigits2 (Z.pos b)) in *.
  replace (Z.min (k - 53) 0) with (k - 53) in * by lia.
  set (sc := - (k - 53)) in *.
  set (S := 2 ^ sc) in *.
  assert (0 < S) as HS by (apply Z.pow_pos_nonneg; lia).
  pose proof (Z.mul_div_le (Z.pos a * S) (Z.pos b) ltac:(lia)) as Hfl1.
  pose proof (Z.mul_succ_div_gt (Z.pos a * S) (Z.pos b) ltac:(lia)) as Hfl2.
  rewrite <- Hq in Hfl1, Hfl2.
  assert (0 <= q) as Hqnn.
  { rewrite Hq. apply Z.div_pos; [|lia]. apply Z.mul_nonneg_nonneg; lia. }
  assert (0 < q) as Hqpos by (destruct q; simpl in Hdq; lia).
  (* the quotient stays two units below 2^sc *)
  assert (2 ^ 53 <= S) as Hsc by (apply Z.pow_le_mono_r; lia).
  assert (q <= S - 2) as Hqhi.
  { assert (q < S - 1); [|lia].
    rewrite Hq. apply Z.div_lt_upper_bound; [lia|]. nia. }
  assert (Zdigits2 q = 53 \/ Zdigits2 q = 54) as [Hd53|Hd54] by lia.
  - (* no digit is dropped *)
    destruct (binary_round_aux_normal false q (k - 53) l Hqpos Hdq ltac:(lia))
      as (m2 & m3 & e3 & -> & [Hm2lo Hm2hi] & Hm3 & He3 & Hval).
    rewrite Hd53 in *. replace (53 - 53) with 0 in * by lia.
    rewrite Z.div_1_r, Z.add_0_r in *.
    set (J := 2 ^ (e3 - (k - 53))) in *.
    assert (0 < J) as HJ by (apply Z.pow_pos_nonneg; lia).
    assert (2 ^ (- e3) * J = S) as HTJ
      by (subst J S; rewrite <- Z.pow_add_r by lia; f_equal; lia).
    assert (0 < 2 ^ (- e3)) as HT by (apply Z.pow_pos_nonneg; lia).
    set (T := 2 ^ (- e3)) in *.
    assert (e3 <= -53) as He3'.
    { destruct (Z_lt_le_dec (-53) e3) as [Hgt|]; [|lia].
      assert (T <= 2 ^ 52) by (apply Z.pow_le_mono_r; lia).
      clear - Hm3 Hval Hm2hi Hqhi HTJ H HJ. nia. }
    destruct (Z.leb_spec e3 971); [|lia].
    exists m3, e3. split; [done|]. split; [done|]. split; [lia|]. fold T.
    split.
    + apply (Z.mul_lt_mono_pos_r J); [done|].
      clear - Hval Hm2lo Hfl2 HTJ HJ Hab. nia.
    + apply (Z.mul_le_mono_pos_r _ _ J); [done|].
      clear - Hval Hm2hi Hfl1 HTJ HJ Hab. nia.
  - destruct q as [|[q'|q'|]|q']; try lia.
    + (* an odd 54-digit quotient *)
      destruct (binary_round_aux_normal false (Z.pos q'~1) (k - 53) l
                  ltac:(lia) Hdq ltac:(lia))
        as (m2 & m3 & e3 & -> & [Hm2lo Hm2hi] & Hm3 & He3 & Hval).
      rewrite Hd54 in *. replace (54 - 53) with 1 in * by lia.
      change (2 ^ 1) with 2 in *.
      assert (Z.pos q'~1 / 2 = Z.pos q') as Hhalf
        by (symmetry; apply Z.div_unique with 1; lia).
      rewrite Hhalf in *.
      set (J := 2 ^ (e3 - (k - 53 + 1))) in *.
      assert (0 < J) as HJ by (apply Z.pow_pos_nonneg; lia).
      assert (2 ^ (- e3) * J * 2 = S) as HTJ.
      { transitivity (2 ^ (- e3) * J * 2 ^ 1); [done|].
        subst J S. rewrite <- !Z.pow_add_r by lia. f_equal. lia. }
      assert (0 < 2 ^ (- e3)) as HT by (apply Z.pow_pos_nonneg; lia).
      set (T := 2 ^ (- e3)) in *.
      assert (e3 <= -53) as He3'.
      { destruct (Z_lt_le_dec (-53) e3) as [Hgt|]; [|lia].
        assert (T <= 2 ^ 52) by (apply Z.pow_le_mono_r; lia).
        clear - Hm3 Hval Hm2hi Hqhi HTJ H HJ. nia. }
      destruct (Z.leb_spec e3 971); [|lia].
      exists m3, e3. split; [done|]. split; [done|]. split; [lia|]. fold T.
      split.
      * apply (Z.mul_lt_mono_pos_r (J * 2)); [lia|].
        clear - Hval Hm2lo Hfl2 HTJ HJ Hab. nia.
      * apply (Z.mul_le_mono_pos_r _ _ (J * 2)); [lia|].
        clear - Hval Hm2hi Hfl1 HTJ HJ Hab. nia.
    + (* an even 54-digit quotient is halved exactly *)
      assert (Zdigits2 (Z.pos q') = 53) as Hd'.
      { cbn [Zdigits2 digits2_pos] in Hd54. cbn [Zdigits2]. lia. }
      rewrite binary_round_aux_even by (done || lia).
      destruct (Z.leb_spec (k - 53 + 1) 971); [|lia].
      pose proof (Zdigits2_bounds (Z.pos q') ltac:(lia)) as Hq'.
      rewrite Hd' in Hq'. change (53 - 1) with 52 in Hq'.
      assert (k - 53 + 1 <= -53) as He3'.
      { destruct (Z_lt_le_dec (-53) (k - 53 + 1)) as [Hgt|]; [|lia].
        (* then sc = 53, and a 54-digit q would reach 2^53 *)
        assert (sc = 53) as Hsc53 by lia. subst S. rewrite Hsc53 in Hqhi. lia. }
      exists q', (k - 53 + 1). split; [done|]. split; [done|]. split; [lia|].
      assert (2 ^ (- (k - 53 + 1)) * 2 = S) as HTJ.
      { transitivity (2 ^ (- (k - 53 + 1)) * 2 ^ 1); [done|].
        subst S. rewrite <- !Z.pow_add_r by lia. f_equal. lia. }
      set (T := 2 ^ (- (k - 53 + 1))) in *.
      clear - Hfl1 Hfl2 HTJ Hab. nia.
    + cbn in Hd54. lia.
Qed.

(** [a / b] for [0 < a < b < 2^53]: a double below [1.0]. *)
Lemma int_truediv_lt_one a b :
  0 < a < b -> b < 2 ^ 53 ->
  exists ratio, int_truediv a b = Ok ratio /\ lt_int ratio 1 = true.
Proof.
  intros Hab Hb.
  destruct (int_truediv_bracket a b Hab Hb) as (m & e & -> & _ & He & _).
  eexists. split; [done|].
  rewrite lt_int_1. unfold SFltb, one, SFcompare.
  destruct (Z.compare_spec e (-52)); [lia|done|lia].
Qed.

(** [int(x * ratio)] for a normal ratio below [1.0]: it does not exceed [x],
    and it is the exact product up to one rounding and one truncation. *)
Lemma int_mul_trunc_bracket x (m : positive) e :
  0 < x < 2 ^ 53 ->
  2 ^ 52 <= Z.pos m < 2 ^ 53 -> -105 <= e <= -53 ->
  exists f n,
    int_mul x (S754_finite false m e) = Ok f /\ to_int f = Ok n /\
    0 <= n <= x /\
    n * 2 ^ (- e) * 2 ^ 52 <= x * Z.pos m * (2 ^ 52 + 1) /\
    x * Z.pos m * (2 ^ 52 - 1) < (n + 1) * 2 ^ (- e) * 2 ^ 52.
Proof.
  intros Hx Hm He. unfold int_mul.
  destruct (of_int_exact x Hx) as (mx & -> & Hmx & Hmx53). cbn [rbind SFmul xorb].
  pose proof (Zdigits2_bounds x ltac:(lia)) as [Hx1 Hx2].
  pose proof (Zdigits2_pos x ltac:(lia)) as Hdx.
  assert (Zdigits2 x <= 53) as Hdx53.
  { destruct (Z_lt_le_dec 53 (Zdigits2 x)); [|lia].
    assert (2 ^ 53 <= 2 ^ (Zdigits2 x - 1)) by (apply Z.pow_le_mono_r; lia). lia. }
  set (ex := Zdigits2 x - 53) in *.
  replace (53 - Zdigits2 x) with (- ex) in Hmx by lia.
  set (p := Z.pos (mx * m)).
  assert (p = Z.pos mx * Z.pos m) as Hp by (subst p; lia).
  assert (2 ^ 104 <= p < 2 ^ 106) as Hp104.
  { change (2 ^ 104) with (2 ^ 52 * 2 ^ 52). change (2 ^ 106) with (2 ^ 53 * 2 ^ 53).
    nia. }
  assert (Zdigits2 p = 105 \/ Zdigits2 p = 106) as Hdp.
  { destruct (Z_lt_le_dec p (2 ^ 105)).
    - left. apply Zdigits2_unique; [lia|]. change (105 - 1) with 104. lia.
    - right. apply Zdigits2_unique; [lia|]. change (106 - 1) with 105. lia. }
  pose proof (Zdigits2_bounds p ltac:(lia)) as [Hplo _].
  destruct (binary_round_aux_normal false p (ex + e) loc_Exact)
    as (m2 & m5 & e5 & -> & [Hm2lo Hm2hi] & Hm5 & He5 & Hval); [lia|lia|lia|].
  set (sh := Zdigits2 p - 53) in *.
  set (e1 := ex + e + sh) in *. fold e1 in Hval, He5.
  assert (e1 <= 0) as He1 by lia.
  (* the four scales: of x, of the ratio, of the dropped digits, of the result *)
  set (U := 2 ^ (- ex)) in *. set (T := 2 ^ (- e)). set (S := 2 ^ sh) in *.
  set (V := 2 ^ (- e1)).
  assert (0 < U) as HU by (apply Z.pow_pos_nonneg; lia).
  assert (0 < T) as HT by (apply Z.pow_pos_nonneg; lia).
  assert (0 < S) as HS by (apply Z.pow_pos_nonneg; lia).
  assert (0 < V) as HV by (apply Z.pow_pos_nonneg; lia).
  assert (V * S = U * T) as HVS.
  { subst V S U T. rewrite <- !Z.pow_add_r by lia. f_equal. lia. }
  assert (2 ^ 52 * S <= p) as HS52.
  { subst S. rewrite <- Z.pow_add_r by lia.
    replace (52 + sh) with (Zdigits2 p - 1) by lia. done. }
  assert (2 ^ 53 <= T) as HT53 by (apply Z.pow_le_mono_r; lia).
  pose proof (Z.mul_div_le p S HS) as Hfl1.
  pose proof (Z.mul_succ_div_gt p S HS) as Hfl2.
  set (d := p / S) in *.
  assert (p = x * U * Z.pos m) as Hp' by (rewrite Hp, Hmx; done).
  destruct (Z.leb_spec e5 971) as [Hfin|Hinf]; [|lia].
  eexists _, _. split; [done|]. cbn [to_int]. split; [done|].
  (* the truncated result n, as the quotient of the mantissa m2 by V *)
  set (n := match e5 with
            | 0 => Z.pos m5
            | Z.pos _ => Z.pos m5 * 2 ^ e5
            | Z.neg q => Z.pos m5 / 2 ^ Z.pos q
            end).
  assert (0 <= n /\ n * V <= m2 < (n + 1) * V) as (Hn0 & Hn1 & Hn2).
  { subst n. destruct e5 as [|e5|e5].
    - replace (0 - e1) with (- e1) in Hval by lia. fold V in Hval. nia.
    - assert (0 < 2 ^ Z.pos e5) as H5 by (apply Z.pow_pos_nonneg; lia).
      assert (2 ^ (Z.pos e5 - e1) = 2 ^ Z.pos e5 * V) as Heq
        by (subst V; rewrite <- Z.pow_add_r by lia; f_equal; lia).
      rewrite Heq in Hval. nia.
    - assert (0 < 2 ^ Z.pos e5) as H5 by (apply Z.pow_pos_nonneg; lia).
      assert (0 < 2 ^ (Z.neg e5 - e1)) as H6 by (apply Z.pow_pos_nonneg; lia).
      assert (V = 2 ^ Z.pos e5 * 2 ^ (Z.neg e5 - e1)) as Heq
        by (subst V; rewrite <- Z.pow_add_r by lia; f_equal; lia).
      pose proof (Z.mul_div_le (Z.pos m5) _ H5) as Hq1.
      pose proof (Z.mul_succ_div_gt (Z.pos m5) _ H5) as Hq2.
      set (n := Z.pos m5 / 2 ^ Z.pos e5) in *.
      assert (0 <= n) by (apply Z.div_pos; lia).
      rewrite Heq, <- Hval, !Z.mul_assoc. split; [done|]. split.
      + apply Z.mul_le_mono_nonneg_r; lia.
      + apply Z.mul_lt_mono_pos_r; lia. }
  clearbody n.
  assert (n * (U * T) <= p + S) as Hup.
  { rewrite <- HVS. clear - Hn1 Hm2hi Hfl1 HS HV Hn0. nia. }
  assert (p - S < (n + 1) * (U * T)) as Hlow.
  { rewrite <- HVS. clear - Hn2 Hm2lo Hfl2 HS HV Hn0. nia. }
  assert (0 < U * T) as HUT by (clear - HU HT; nia).
  split; [split; [done|]|split].
  - (* n <= x, since the ratio is below one *)
    assert (T = 2 ^ (- e - sh) * S) as HTS
      by (subst T S; rewrite <- Z.pow_add_r by lia; f_equal; lia).
    assert (0 < 2 ^ (- e - sh)) as HW by (apply Z.pow_pos_nonneg; lia).
    set (W := 2 ^ (- e - sh)) in *.
    assert (Z.pos m < T) as HmT by lia.
    assert (p < x * U * W * S) as HpT.
    { replace (x * U * W * S) with (x * U * T) by (rewrite HTS; ring).
      rewrite Hp'. apply Z.mul_lt_mono_pos_l; [|done].
      clear - HU Hx. nia. }
    (* both sides are multiples of S *)
    assert (d < x * U * W) as Hd.
    { apply Z.div_lt_upper_bound; [done|]. rewrite Z.mul_comm. done. }
    assert (V = U * W) as HVW.
    { apply (Z.mul_reg_r _ _ S); [lia|]. rewrite HVS, HTS. ring. }
    assert (n * V <= x * V) as Hle.
    { rewrite HVW at 2. clear - Hn1 Hm2hi Hd. lia. }
    apply Z.mul_le_mono_pos_r in Hle; done.
  - assert (U * (n * T * 2 ^ 52) <= U * (x * Z.pos m * (2 ^ 52 + 1))) as Hle.
    { clear - Hup HS52 Hp' HU. nia. }
    by apply Z.mul_le_mono_pos_l in Hle.
  - assert (U * (x * Z.pos m * (2 ^ 52 - 1)) < U * ((n + 1) * T * 2 ^ 52)) as Hlt.
    { clear - Hlow HS52 Hp' HU. nia. }
    by apply Z.mul_lt_mono_pos_l in Hlt.
Qed.

(** The side [x] of an image whose longer side is [b], scaled by the double
    [a / b]: never more than [a], and for the longer side itself never less
    than [a - 1]. *)
Lemma int_mul_trunc_side a b x (m : positive) e :
  0 < a < b -> b < 2 ^ 53 -> a <= 2 ^ 50 ->
  2 ^ 52 <= Z.pos m < 2 ^ 53 -> -105 <= e <= -53 ->
  a * 2 ^ (- e) - b < b * Z.pos m <= a * 2 ^ (- e) + b ->
  0 < x <= b ->
  exists f n,
    int_mul x (S754_finite false m e) = Ok f /\ to_int f = Ok n /\
    0 <= n <= x /\ n <= a /\ (x = b -> a - 1 <= n).
Proof.
  intros Hab Hb Ha Hm He [Hlo Hhi] Hx.
  destruct (int_mul_trunc_bracket x m e) as (f & n & Hf & Hn & Hnx & Hup & Hdown);
    [lia|done|done|].
  exists f, n. split; [done|]. split; [done|]. split; [done|].
  assert (0 < 2 ^ (- e)) as HT by (apply Z.pow_pos_nonneg; lia).
  set (T := 2 ^ (- e)) in *. set (M := Z.pos m) in *.
  change (2 ^ 52) with 4503599627370496 in *.
  change (2 ^ 50) with 1125899906842624 in *.
  assert (b * 4503599627370495 <= a * T) as Hb52.
  { clear - Hhi Hm Hab. nia. }
  assert (x * M <= b * M) as HxM by (clear - Hx Hm; nia).
  split.
  - destruct (Z_le_gt_dec n a) as [|Hgt]; [done|exfalso].
    assert ((a + 1) * T * 4503599627370496 <= n * T * 4503599627370496) as H1
      by (clear - Hgt HT; nia).
    assert (x * M * 4503599627370497 <= (a * T + b) * 4503599627370497) as H2
      by (clear - HxM Hhi; nia).
    clear - H1 H2 Hup Hb52 Ha HT Hab. nia.
  - intros ->.
    destruct (Z_le_gt_dec (a - 1) n) as [|Hgt]; [done|exfalso].
    assert ((n + 1) * T * 4503599627370496 <= (a - 1) * T * 4503599627370496) as H1
      by (clear - Hgt HT; nia).
    assert ((a * T - b) * 4503599627370495 < b * M * 4503599627370495) as H2
      by (clear - Hlo; nia).
    clear - H1 H2 Hdown Hb52 Ha HT Hab. nia.
Qed.

End Binary64Facts.

(** ** The proportional resize *)

Section resize_facts.
Context {I : Imaging}.

Lemma resize_target_within w h max_side :
  0 <= w -> 0 <= h -> Z.max w h <= max_side ->
  resize_target w h max_side = Ok None \/
  (Z.max w h = 0 /\
   resize_target w h max_side = Raise PyFloat.ZeroDivisionError) \/
  (2 ^ 1023 <= max_side /\
   resize_target w h max_side = Raise PyFloat.OverflowError_div).
Proof.
  intros Hw Hh Hmax. unfold resize_target.
  destruct (Z.eq_dec (Z.max w h) 0) as [Hz|Hnz].
  - right; left. split; [done|]. rewrite Hz.
    unfold PyFloat.int_truediv. by destruct max_side.
  - destruct (int_truediv_ge_one max_side (Z.max w h) ltac:(lia))
      as [(x & -> & Hx)|[Hbig ->]].
    + left. cbn [rbind]. by rewrite Hx.
    + right; right. done.
Qed.

Lemma int_mul_trunc_nonneg x (m : positive) e :
  0 <= x < 2 ^ 53 ->
  2 ^ 52 <= Z.pos m < 2 ^ 53 -> -105 <= e <= -53 ->
  exists f n,
    PyFloat.int_mul x (S754_finite false m e) = Ok f /\ PyFloat.to_int f = Ok n /\
    0 <= n <= x.
Proof.
  intros Hx Hm He. destruct (Z.eq_dec x 0) as [->|Hnz].
  - eexists _, _. cbn. split; [done|]. split; [done|lia].
  - destruct (int_mul_trunc_bracket x m e) as (f & n & Hf & Hn & Hle & _);
      [lia|done|done|].
    by exists f, n.
Qed.

(** What lines 70-72 compute from a ratio below [1.0]. *)
Lemma resize_target_below_one w h max_side ratio :
  0 <= w < 2 ^ 53 -> 0 <= h < 2 ^ 53 -> 0 < max_side -> 0 < Z.max w h ->
  PyFloat.int_truediv max_side (Z.max w h) = Ok ratio ->
  PyFloat.lt_int ratio 1 = true ->
  exists nw nh,
    resize_target w h max_side = Ok (Some (nw, nh)) /\
    0 <= nw <= w /\ 0 <= nh <= h.
Proof.
  intros Hw Hh Hmax Hlong Hdiv Hlt. unfold resize_target.
  rewrite Hdiv. cbn [rbind]. rewrite Hlt.
  destruct (int_truediv_below_one max_side (Z.max w h) ratio)
    as (m & e & -> & Hm & He); [lia|lia|done|done|].
  destruct (int_mul_trunc_nonneg w m e Hw Hm He) as (fw & nw & -> & Hnw & Hwle).
  cbn [rbind]. rewrite Hnw. cbn [rbind].
  destruct (int_mul_trunc_nonneg h m e Hh Hm He) as (fh & nh & -> & Hnh & Hhle).
  cbn [rbind]. rewrite Hnh. cbn [rbind].
  by exists nw, nh.
Qed.

(** When the resize step does compute a new size, neither side grows. *)
Lemma resize_target_shrinks w h max_side nw nh :
  0 <= w < 2 ^ 53 -> 0 <= h < 2 ^ 53 -> 0 < max_side ->
  resize_target w h max_side = Ok (Some (nw, nh)) ->
  0 <= nw <= w /\ 0 <= nh <= h.
Proof.
  intros Hw Hh Hmax Htarget.
  destruct (Z.eq_dec (Z.max w h) 0) as [Hz|Hnz].
  { unfold resize_target in Htarget. rewrite Hz in Htarget. by destruct max_side. }
  destruct (PyFloat.int_truediv max_side (Z.max w h)) as [ratio|e] eqn:Hdiv;
    [|by unfold resize_target in Htarget; rewrite Hdiv in Htarget].
  destruct (PyFloat.lt_int ratio 1) eqn:Hlt;
    [|by unfold resize_target in Htarget; rewrite Hdiv in Htarget;
         cbn [rbind] in Htarget; rewrite Hlt in Htarget].
  destruct (resize_target_below_one w h max_side ratio)
    as (nw' & nh' & Heq & Hnw & Hnh); [done|done|done|lia|done|done|].
  rewrite Heq in Htarget. by injection Htarget as <- <-.
Qed.

(** An image whose longer side exceeds [max_side] is resized, to a size that
    is not larger in either dimension. *)
Lemma resize_target_beyond w h max_side :
  0 <= w < 2 ^ 53 -> 0 <= h < 2 ^ 53 -> 0 < max_side < Z.max w h ->
  exists nw nh,
    resize_target w h max_side = Ok (Some (nw, nh)) /\
    0 <= nw <= w /\ 0 <= nh <= h.
Proof.
  intros Hw Hh Hmax.
  destruct (int_truediv_lt_one max_side (Z.max w h)) as (ratio & Hdiv & Hlt);
    [lia|lia|].
  by apply (resize_target_below_one w h max_side ratio); try lia.
Qed.

(** The size computed for an image whose longer side exceeds [max_side]: no
    side grows, and the longer side becomes [max_side] or [max_side - 1]. *)
Lemma resize_target_longer_side w h max_side :
  0 <= w < 2 ^ 53 -> 0 <= h < 2 ^ 53 ->
  0 < max_side < Z.max w h -> max_side <= 2 ^ 50 ->
  exists nw nh,
    resize_target w h max_side = Ok (Some (nw, nh)) /\
    0 <= nw <= w /\ 0 <= nh <= h /\
    max_side - 1 <= Z.max nw nh <= max_side.
Proof.
  intros Hw Hh Hmax Hsmall.
  destruct (int_truediv_bracket max_side (Z.max w h)) as (m & e & Hdiv & Hm & He & Hbr);
    [lia|lia|].
  assert (forall x, 0 <= x <= Z.max w h ->
            exists f n,
              PyFloat.int_mul x (S754_finite false m e) = Ok f /\
              PyFloat.to_int f = Ok n /\
              0 <= n <= x /\ n <= max_side /\ (x = Z.max w h -> max_side - 1 <= n))
    as Hside.
  { intros x Hx. destruct (Z.eq_dec x 0) as [->|Hnz].
    - eexists _, _. cbn. split; [done|]. split; [done|]. lia.
    - apply (int_mul_trunc_side max_side (Z.max w h)); (done || lia). }
  destruct (Hside w ltac:(lia)) as (fw & nw & Hfw & Hnw & Hw1 & Hw2 & Hw3).
  destruct (Hside h ltac:(lia)) as (fh & nh & Hfh & Hnh & Hh1 & Hh2 & Hh3).
  exists nw, nh. split.
  - unfold resize_target. rewrite Hdiv. cbn [rbind].
    assert (PyFloat.lt_int (S754_finite false m e) 1 = true) as ->.
    { rewrite lt_int_1. unfold SFltb, PyFloat.one, SFcompare.
      destruct (Z.compare_spec e (-52)); [lia|done|lia]. }
    rewrite Hfw. cbn [rbind]. rewrite Hnw. cbn [rbind].
    rewrite Hfh. cbn [rbind]. rewrite Hnh. done.
  - split; [done|]. split; [done|].
    destruct (Z.max_spec w h) as [[_ Heq]|[_ Heq]].
    + specialize (Hh3 (eq_sym Heq)). lia.
    + specialize (Hw3 (eq_sym Heq)). lia.
Qed.

End resize_facts.

(** C1.  The claim: whenever the longer side exceeds [max_side], the new size
    is (int(w * ratio), int(h * ratio)) with ratio = max_side / max(w, h), and
    its longer side equals [max_side].  The first half holds: such an image is
    resized, no side grows, and the longer side becomes [max_side] or
    [max_side - 1].  The second half does not: on a 2139 x 1000 image with the
    default [max_side] of 1280 the double 2139 * (1280 / 2139) falls just
    below 1280.0, and truncation leaves a longer side of 1279. *)
Theorem C1_longer_side_1279 :
  (forall w h max_side,
     0 <= w < 2 ^ 53 -> 0 <= h < 2 ^ 53 ->
     0 < max_side < Z.max w h -> max_side <= 2 ^ 50 ->
     exists nw nh,
       resize_target w h max_side = Ok (Some (nw, nh)) /\
       0 <= nw <= w /\ 0 <= nh <= h /\
       max_side - 1 <= Z.max nw nh <= max_side) /\
  resize_target 2139 1000 DEFAULT_MAX_SIDE = Ok (Some (1279, 598)) /\
  Z.max 1279 598 <> DEFAULT_MAX_SIDE.
Proof.
  split; [apply resize_target_longer_side|].
  split; [vm_compute; reflexivity | unfold DEFAULT_MAX_SIDE; lia].
Qed.

(** C2.  An image whose longer side is at most [max_side] is never resized:
    whenever the resize step yields an image it is the very image it was
    given, and it does yield it as long as the image is not empty and
    [max_side] is in the range of a double.  No image is ever scaled up: a new
    size, when the step computes one, exceeds the old size in neither
    dimension. *)
Theorem C2_no_resize_within_bounds {I : Imaging} (img : image) (max_side : Z) :
  0 <= (img_size img).1 -> 0 <= (img_size img).2 ->
  (Z.max (img_size img).1 (img_size img).2 <= max_side ->
     (forall img', resize_step img max_side = Ok img' -> img' = img) /\
     (0 < Z.max (img_size img).1 (img_size img).2 -> max_side < 2 ^ 1023 ->
      resize_step img max_side = Ok img)) /\
  (0 < max_side -> (img_size img).1 < 2 ^ 53 -> (img_size img).2 < 2 ^ 53 ->
   forall nw nh,
     resize_target (img_size img).1 (img_size img).2 max_side = Ok (Some (nw, nh)) ->
     nw <= (img_size img).1 /\ nh <= (img_size img).2).
Proof.
  unfold resize_step. destruct (img_size img) as [w h]. cbn [fst snd].
  intros Hw Hh. split.
  - intros Hmax.
    destruct (resize_target_within w h max_side Hw Hh Hmax)
      as [->|[[Hz ->]|[Hbig ->]]]; cbn [rbind].
    + split; [by intros img' [= <-]|done].
    + split; [done|lia].
    + split; [done|lia].
  - intros Hpos Hw53 Hh53 nw nh Htarget.
    apply resize_target_shrinks in Htarget; lia.
Qed.

Lemma C2_no_resize_within_bounds_witness :
  ((forall img', resize_step (I:=Toy.imaging) Toy.vga 1280 = Ok img' -> img' = Toy.vga) /\
   resize_step (I:=Toy.imaging) Toy.vga 1280 = Ok Toy.vga) /\
  (100 <= 640 /\ 75 <= 480).
Proof.
  destruct (C2_no_resize_within_bounds (I:=Toy.imaging) Toy.vga 1280)
    as [Hwithin _]; [simpl; lia | simpl; lia |].
  destruct (C2_no_resize_within_bounds (I:=Toy.imaging) Toy.vga 100)
    as [_ Hshrink]; [simpl; lia | simpl; lia |].
  split.
  - destruct Hwithin as [Hsame Hkeep]; [simpl; lia|].
    split; [exact Hsame|]. apply Hkeep; [simpl; lia | lia].
  - apply (Hshrink ltac:(lia) ltac:(simpl; lia) ltac:(simpl; lia) 100 75).
    vm_compute. reflexivity.
Defined.

(** ** process_image *)

Section process_image_facts.
Context {P : Platform} {I : Imaging}.
Implicit Types (σ : fs) (input_path output_path : Path) (max_side jpeg_quality : Z).

Lemma process_image_try_eq input_path output_path max_side jpeg_quality σ :
  process_image_try input_path output_path max_side jpeg_quality σ =
  match Image_open σ input_path with
  | Raise e => (σ, Raise e)
  | Ok img =>
      match prepare img max_side with
      | Raise e => (σ, Raise e)
      | Ok img' =>
          match Path_mkdir (Path_parent output_path) σ with
          | (σ1, Raise e) => (σ1, Raise e)
          | (σ1, Ok _) =>
              save img' output_path (captured_kwargs img jpeg_quality) σ1
          end
      end
  end.
Proof.
  unfold process_image_try, io_bind, io_lift, captured_kwargs.
  destruct (Image_open σ input_path) as [img|e]; [|done].
  destruct (prepare img max_side) as [img'|e]; [|done].
  destruct (Path_mkdir (Path_parent output_path) σ) as [σ1 [[]|e]]; done.
Qed.

Lemma prepare_raises img max_side e :
  prepare img max_side = Raise e <->
  exif_transpose img = Raise e \/
  (exists img1, exif_transpose img = Ok img1 /\ normalize_mode img1 = Raise e) \/
  (exists img1 img2, exif_transpose img = Ok img1 /\
     normalize_mode img1 = Ok img2 /\ resize_step img2 max_side = Raise e).
Proof.
  unfold prepare.
  destruct (exif_transpose img) as [img1|e1] eqn:Ht; cbn [rbind].
  - destruct (normalize_mode img1) as [img2|e2] eqn:Hc; cbn [rbind].
    + split; [intros Hr; right; right; by exists img1, img2|].
      intros [[=]|[(? & [= <-] & Hc')|(? & ? & [= <-] & Hc' & Hr)]];
        rewrite Hc in Hc'; by simplify_eq.
    + split; [intros [= ->]; right; left; by exists img1|].
      intros [[=]|[(? & [= <-] & Hc')|(? & ? & [= <-] & Hc' & Hr)]];
        rewrite Hc in Hc'; by simplify_eq.
  - split; [intros [= ->]; by left|].
    intros [?|[(? & ? & _)|(? & ? & ? & _)]]; by simplify_eq.
Qed.

Lemma step_raises_try input_path output_path max_side jpeg_quality σ e :
  step_raises σ input_path output_path max_side jpeg_quality e ->
  exists σ',
    process_image_try input_path output_path max_side jpeg_quality σ = (σ', Raise e).
Proof.
  intros Hstep. rewrite process_image_try_eq.
  destruct Hstep as [e Ho|img e Ho Ht|img img1 e Ho Ht Hc|img img1 img2 e Ho Ht Hc Hr
                    |img img' σ1 e Ho Hp Hm|img img' σ1 σ2 kw e Ho Hp Hm Hs ->];
    rewrite Ho.
  - by exists σ.
  - exists σ. replace (prepare img max_side) with (@Raise image e); [done|].
    symmetry. apply prepare_raises. by left.
  - exists σ. replace (prepare img max_side) with (@Raise image e); [done|].
    symmetry. apply prepare_raises. right; left. by exists img1.
  - exists σ. replace (prepare img max_side) with (@Raise image e); [done|].
    symmetry. apply prepare_raises. right; right. by exists img1, img2.
  - exists σ1. by rewrite Hp, Hm.
  - exists σ2. by rewrite Hp, Hm.
Qed.

Lemma try_raises_step input_path output_path max_side jpeg_quality σ σ' e :
  process_image_try input_path output_path max_side jpeg_quality σ = (σ', Raise e) ->
  step_raises σ input_path output_path max_side jpeg_quality e.
Proof.
  rewrite process_image_try_eq.
  destruct (Image_open σ input_path) as [img|e0] eqn:Ho.
  - destruct (prepare img max_side) as [img'|e1] eqn:Hp.
    + destruct (Path_mkdir (Path_parent output_path) σ) as [σ1 [[]|e2]] eqn:Hm.
      * intros Hs. by apply (raises_save _ _ _ _ _ img img' σ1 σ' _ e Ho Hp Hm Hs).
      * intros [= <- <-]. by eapply raises_mkdir.
    + intros [= <- <-]. apply prepare_raises in Hp
        as [Ht|[(img1 & Ht & Hc)|(img1 & img2 & Ht & Hc & Hr)]].
      * by eapply raises_orient.
      * by eapply raises_convert.
      * by eapply raises_resize.
  - intros [= <- <-]. by apply raises_decode.
Qed.

(** What a successful transform has done. *)
Lemma try_ok_inv input_path output_path max_side jpeg_quality σ σ' :
  process_image_try input_path output_path max_side jpeg_quality σ = (σ', Ok tt) ->
  exists img img',
    Image_open σ input_path = Ok img /\ prepare img max_side = Ok img' /\
    fs_files σ' =
      <[output_path := jpeg_encode img' (captured_kwargs img jpeg_quality)]>
        (fs_files σ) /\
    fs_dirs σ ⊆ fs_dirs σ' /\
    Path_parent output_path ∈ fs_dirs σ'.
Proof.
  rewrite process_image_try_eq. intros Htry.
  destruct (Image_open σ input_path) as [img|e0] eqn:Ho; [|done].
  destruct (prepare img max_side) as [img'|e1] eqn:Hp; [|done].
  destruct (Path_mkdir (Path_parent output_path) σ) as [σ1 [[]|e2]] eqn:Hm; [|done].
  exists img, img'. split; [done|]. split; [done|].
  apply save_ok in Htry as [Hd Hf].
  rewrite Hf, Hd, (mkdir_files _ _ _ _ Hm).
  split; [done|]. split; [by eapply mkdir_dirs|by eapply mkdir_ok].
Qed.

Lemma lookup_save_kwargs_exif exif_data icc_profile jpeg_quality :
  save_kwargs exif_data icc_profile jpeg_quality !! "exif"%string =
  carried (Some exif_data).
Proof.
  unfold save_kwargs, add_icc, add_exif, save_kwargs_base.
  destruct icc_profile as [[|c icc]|], exif_data as [|b bs]; done.
Qed.

Lemma lookup_save_kwargs_icc exif_data icc_profile jpeg_quality :
  save_kwargs exif_data icc_profile jpeg_quality !! "icc_profile"%string =
  carried icc_profile.
Proof.
  unfold save_kwargs, add_icc, add_exif, save_kwargs_base.
  destruct icc_profile as [[|c icc]|], exif_data as [|b bs]; done.
Qed.

Lemma carried_default (o : option bytes) : carried (Some (default [] o)) = carried o.
Proof. by destruct o as [[|b bs]|]. Qed.

End process_image_facts.

(** ** The two loops of main *)

Section loop_facts.
Context {P : Platform} {I : Imaging}.
Implicit Types (σ : fs) (files : list Path) (output_dir : Path)
  (max_side jpeg_quality : Z) (tr tl : list event).

Lemma results_app tr tl : results (tr ++ tl) = results tr ++ results tl.
Proof. unfold results. apply omap_app. Qed.

Lemma tasks_of_app tr tl : tasks_of (tr ++ tl) = tasks_of tr ++ tasks_of tl.
Proof. unfold tasks_of. apply omap_app. Qed.

Lemma executors_app tr tl : executors (tr ++ tl) = executors tr ++ executors tl.
Proof. unfold executors. apply omap_app. Qed.

Lemma results_submit (tasks : list (Path * Path)) :
  results (map (fun t => Submit t.1 t.2) tasks) = [].
Proof. induction tasks as [|t tasks IH]; [done|]. simpl. exact IH. Qed.

Lemma tasks_of_submit (tasks : list (Path * Path)) :
  tasks_of (map (fun t => Submit t.1 t.2) tasks) = tasks.
Proof.
  induction tasks as [|[p out] tasks IH]; [done|].
  unfold tasks_of in *. cbn. by rewrite IH.
Qed.

Lemma executors_submit (tasks : list (Path * Path)) :
  executors (map (fun t => Submit t.1 t.2) tasks) = [].
Proof. induction tasks as [|t tasks IH]; [done|]. simpl. exact IH. Qed.

(** The sequential loop reports every file, in the order of the list,
    whatever each transform returns. *)
Lemma sequential_results files output_dir max_side jpeg_quality σ :
  (results (sequential files output_dir max_side jpeg_quality σ).2).*1 = files.
Proof.
  revert σ. induction files as [|p rest IH]; intros σ; [done|].
  cbn [sequential].
  destruct (process_image p _ max_side jpeg_quality σ) as [σ1 line].
  specialize (IH σ1).
  destruct (sequential rest output_dir max_side jpeg_quality σ1) as [σ2 evs].
  cbn in *. by rewrite IH.
Qed.

Lemma sequential_tasks files output_dir max_side jpeg_quality σ :
  tasks_of (sequential files output_dir max_side jpeg_quality σ).2 =
  map (fun p => (p, output_for output_dir p)) files.
Proof.
  revert σ. induction files as [|p rest IH]; intros σ; [done|].
  cbn [sequential].
  destruct (process_image p _ max_side jpeg_quality σ) as [σ1 line].
  specialize (IH σ1).
  destruct (sequential rest output_dir max_side jpeg_quality σ1) as [σ2 evs].
  cbn in *. by rewrite IH.
Qed.

Lemma sequential_no_pool files output_dir max_side jpeg_quality σ :
  forallb (fun ev => negb (pool_event ev))
    (sequential files output_dir max_side jpeg_quality σ).2 = true.
Proof.
  revert σ. induction files as [|p rest IH]; intros σ; [done|].
  cbn [sequential].
  destruct (process_image p _ max_side jpeg_quality σ) as [σ1 line].
  specialize (IH σ1).
  destruct (sequential rest output_dir max_side jpeg_quality σ1) as [σ2 evs].
  cbn in *. exact IH.
Qed.

Lemma sequential_peak files output_dir max_side jpeg_quality σ tl :
  peak_in_flight 0 tl = 0%nat ->
  (peak_in_flight 0
     ((sequential files output_dir max_side jpeg_quality σ).2 ++ tl) <= 1)%nat.
Proof.
  intros Htl. revert σ. induction files as [|p rest IH]; intros σ.
  - cbn. lia.
  - cbn [sequential].
    destruct (process_image p _ max_side jpeg_quality σ) as [σ1 line].
    specialize (IH σ1).
    destruct (sequential rest output_dir max_side jpeg_quality σ1) as [σ2 evs].
    cbn in *. lia.
Qed.

Lemma sequential_streamed files output_dir max_side jpeg_quality σ tl :
  streamed ((sequential files output_dir max_side jpeg_quality σ).2 ++ tl) =
  streamed tl.
Proof.
  revert σ. induction files as [|p rest IH]; intros σ; [done|].
  cbn [sequential].
  destruct (process_image p _ max_side jpeg_quality σ) as [σ1 line].
  specialize (IH σ1).
  destruct (sequential rest output_dir max_side jpeg_quality σ1) as [σ2 evs].
  cbn in *. by rewrite String.eqb_refl.
Qed.

(** The pool reports every task it was given, in completion order. *)
Lemma collect_results (done : list (Path * Path)) max_side jpeg_quality σ :
  (results (collect done max_side jpeg_quality σ).2).*1 = done.*1.
Proof.
  revert σ. induction done as [|[inp out] rest IH]; intros σ; [done|].
  cbn [collect].
  destruct (process_image inp out max_side jpeg_quality σ) as [σ1 line].
  specialize (IH σ1).
  destruct (collect rest max_side jpeg_quality σ1) as [σ2 evs].
  cbn in *. by rewrite IH.
Qed.

Lemma collect_tasks (done : list (Path * Path)) max_side jpeg_quality σ :
  tasks_of (collect done max_side jpeg_quality σ).2 = [].
Proof.
  revert σ. induction done as [|[inp out] rest IH]; intros σ; [done|].
  cbn [collect].
  destruct (process_image inp out max_side jpeg_quality σ) as [σ1 line].
  specialize (IH σ1).
  destruct (collect rest max_side jpeg_quality σ1) as [σ2 evs].
  cbn in *. exact IH.
Qed.

Lemma collect_executors (done : list (Path * Path)) max_side jpeg_quality σ :
  executors (collect done max_side jpeg_quality σ).2 = [].
Proof.
  revert σ. induction done as [|[inp out] rest IH]; intros σ; [done|].
  cbn [collect].
  destruct (process_image inp out max_side jpeg_quality σ) as [σ1 line].
  specialize (IH σ1).
  destruct (collect rest max_side jpeg_quality σ1) as [σ2 evs].
  cbn in *. exact IH.
Qed.

Lemma sequential_executors files output_dir max_side jpeg_quality σ :
  executors (sequential files output_dir max_side jpeg_quality σ).2 = [].
Proof.
  revert σ. induction files as [|p rest IH]; intros σ; [done|].
  cbn [sequential].
  destruct (process_image p _ max_side jpeg_quality σ) as [σ1 line].
  specialize (IH σ1).
  destruct (sequential rest output_dir max_side jpeg_quality σ1) as [σ2 evs].
  cbn in *. exact IH.
Qed.

(** The three ways a run can go. *)
Lemma main_not_found input_dir max_side jpeg_quality σ :
  Path_exists σ input_dir = false \/ Path_is_dir σ input_dir = false ->
  main input_dir max_side jpeg_quality σ =
  Run σ [Print (not_found_line input_dir)] 1.
Proof. unfold main. by intros [-> | ->]; rewrite ?orb_true_r. Qed.

Lemma main_no_images input_dir max_side jpeg_quality σ :
  Path_exists σ input_dir = true -> Path_is_dir σ input_dir = true ->
  eligible_files σ input_dir = [] ->
  main input_dir max_side jpeg_quality σ =
  Run σ [Print (no_images_line input_dir)] 0.
Proof. unfold main. by intros -> -> ->. Qed.

Lemma main_network input_dir max_side jpeg_quality σ :
  Path_exists σ input_dir = true -> Path_is_dir σ input_dir = true ->
  eligible_files σ input_dir <> [] ->
  is_network_path input_dir = true ->
  let loop := sequential (eligible_files σ input_dir)
                (input_dir // "compressed") max_side jpeg_quality σ in
  main input_dir max_side jpeg_quality σ =
  Run loop.1 (Print (network_mode_line input_dir) :: loop.2 ++ [Print elapsed_line]) 0.
Proof.
  unfold main. intros -> -> Hfiles ->. cbn [negb orb].
  destruct (eligible_files σ input_dir) as [|p rest] eqn:E; [done|].
  by destruct (sequential _ _ _ _ _).
Qed.

Lemma main_local input_dir max_side jpeg_quality σ :
  Path_exists σ input_dir = true -> Path_is_dir σ input_dir = true ->
  eligible_files σ input_dir <> [] ->
  is_network_path input_dir = false ->
  let tasks := map (fun p => (p, output_for (input_dir // "compressed") p))
                 (eligible_files σ input_dir) in
  let loop := collect (as_completed tasks) max_side jpeg_quality σ in
  main input_dir max_side jpeg_quality σ =
  Run loop.1
    (Print (local_mode_line cpu_count_or_1 input_dir)
       :: Executor cpu_count_or_1
       :: map (fun t => Submit t.1 t.2) tasks ++ loop.2 ++ [Print elapsed_line])
    0.
Proof.
  unfold main. intros -> -> Hfiles ->. cbn [negb orb].
  destruct (eligible_files σ input_dir) as [|p rest] eqn:E; [done|].
  by destruct (collect _ _ _ _).
Qed.

(** Every transform is started or submitted with the destination
    [compressed/<stem>.jpg], once per eligible file, in listing order. *)
Lemma main_tasks input_dir max_side jpeg_quality σ :
  tasks_of (run_events (main input_dir max_side jpeg_quality σ)) =
  if Path_exists σ input_dir && Path_is_dir σ input_dir
  then map (fun p => (p, output_for (input_dir // "compressed") p))
           (eligible_files σ input_dir)
  else [].
Proof.
  destruct (Path_exists σ input_dir) eqn:Hex;
    [destruct (Path_is_dir σ input_dir) eqn:Hdir|].
  - cbn [andb].
    destruct (decide (eligible_files σ input_dir = [])) as [E|E].
    + rewrite main_no_images by done. by rewrite E.
    + destruct (is_network_path input_dir) eqn:Hnet.
      * rewrite main_network by done. cbn [run_events].
        change (tasks_of (Print ?x :: ?l)) with (tasks_of l).
        rewrite tasks_of_app, sequential_tasks. cbn. by rewrite app_nil_r.
      * rewrite main_local by done. cbn [run_events].
        change (tasks_of (Print ?x :: Executor ?n :: ?l)) with (tasks_of l).
        rewrite !tasks_of_app, tasks_of_submit, collect_tasks. cbn.
        by rewrite app_nil_r.
  - rewrite main_not_found by auto. done.
  - rewrite main_not_found by auto. done.
Qed.

End loop_facts.

(** ** The claims about process_image *)

(** C3.  The EXIF block and the ICC profile are read from the image as
    [Image.open] returned it, before orientation, conversion and resizing.
    Whenever the transform gets as far as encoding, [img.save] is called with
    keyword arguments in which each of the two is present exactly when the
    captured payload was present and not empty, and is that payload, byte for
    byte; nothing else is ever put there. *)
Theorem C3_metadata_carried {P : Platform} {I : Imaging}
    (σ σ1 : fs) (input_path output_path : Path) (max_side jpeg_quality : Z)
    (img img' : image) :
  Image_open σ input_path = Ok img ->
  prepare img max_side = Ok img' ->
  Path_mkdir (Path_parent output_path) σ = (σ1, Ok tt) ->
  exists kw,
    process_image_try input_path output_path max_side jpeg_quality σ =
      save img' output_path kw σ1 /\
    kw !! "exif"%string = carried (img_info img !! "exif"%string) /\
    kw !! "icc_profile"%string = carried (img_info img !! "icc_profile"%string).
Proof.
  intros Ho Hp Hm. exists (captured_kwargs img jpeg_quality).
  rewrite process_image_try_eq, Ho, Hp, Hm. split; [done|].
  unfold captured_kwargs.
  rewrite lookup_save_kwargs_exif, lookup_save_kwargs_icc, carried_default. done.
Qed.

Lemma C3_metadata_carried_witness :
  exists kw,
    process_image_try (P:=Toy.posix) (I:=Toy.imaging)
      Toy.a_jpg Toy.a_out 64 65 Toy.folder =
      save (Imaging:=Toy.imaging) Toy.a_small Toy.a_out kw Toy.folder_compressed /\
    kw !! "exif"%string =
      carried (img_info (Imaging:=Toy.imaging) Toy.a_opened !! "exif"%string) /\
    kw !! "icc_profile"%string =
      carried (img_info (Imaging:=Toy.imaging) Toy.a_opened !! "icc_profile"%string).
Proof.
  apply (C3_metadata_carried (P:=Toy.posix) (I:=Toy.imaging)
           Toy.folder Toy.folder_compressed Toy.a_jpg Toy.a_out 64 65
           Toy.a_opened Toy.a_small); vm_compute; reflexivity.
Defined.

(** C4.  Every exception raised inside the transform, at whichever step, is
    turned into the returned line "[ERR] <name>: <cause>": a call of
    [process_image] either meets no exception and returns the success line,
    or some step raises [e] and it returns the failure line with the name of
    the source file and [str(e)].  It always returns, so both loops of [main]
    go on to the remaining files and report every one of them. *)
Theorem C4_exceptions_become_results {P : Platform} {I : Imaging}
    (σ : fs) (input_path output_path : Path) (max_side jpeg_quality : Z) :
  ((exists σ',
      process_image input_path output_path max_side jpeg_quality σ =
        (σ', "[OK] " +:+ Path_name input_path +:+ " -> " +:+ Path_name output_path) /\
      forall e, ~ step_raises σ input_path output_path max_side jpeg_quality e)
   \/
   (exists σ' e,
      step_raises σ input_path output_path max_side jpeg_quality e /\
      process_image input_path output_path max_side jpeg_quality σ =
        (σ', "[ERR] " +:+ Path_name input_path +:+ ": " +:+ exn_msg e)))
  /\ (forall files output_dir,
        (results (sequential files output_dir max_side jpeg_quality σ).2).*1 = files)
  /\ (forall tasks,
        (results (collect tasks max_side jpeg_quality σ).2).*1 = tasks.*1).
Proof.
  split; [|split; intros; [apply sequential_results|apply collect_results]].
  unfold process_image.
  destruct (process_image_try input_path output_path max_side jpeg_quality σ)
    as [σ' [[]|e]] eqn:Htry.
  - left. exists σ'. split; [done|].
    intros e Hstep. apply step_raises_try in Hstep as [σ'' Hstep]. congruence.
  - right. exists σ', e. split; [|done]. by eapply try_raises_step.
Qed.

(** A truncated file fails at [Image.open]; the run over the whole folder
    still reports all four eligible files and ends with status 0. *)
Example truncated_file_reported :
  process_image (P:=Toy.posix) (I:=Toy.imaging)
    Toy.bad_bmp Toy.f_out 1280 65 Toy.folder
    = (Toy.folder, "[ERR] bad.bmp: cannot identify image file"%string) /\
  (results (run_events
     (main (P:=Toy.posix) (I:=Toy.imaging) Toy.pics 1280 65 Toy.folder))).*2
    = ["[ERR] f.tif: cannot write mode F as JPEG";
       "[OK] a.png -> a.jpg";
       "[OK] a.jpg -> a.jpg";
       "[ERR] bad.bmp: cannot identify image file"]%string /\
  run_status (main (P:=Toy.posix) (I:=Toy.imaging) Toy.pics 1280 65 Toy.folder) = 0.
Proof. vm_compute. done. Qed.




(** ** The claims about main *)

Section eligible_facts.
Context {P : Platform}.

Lemma elem_of_eligible_files σ input_dir p :
  p ∈ eligible_files σ input_dir <->
  p ∈ Path_iterdir σ input_dir /\
  lower (Path_suffix p) ∈ exts /\ Path_is_file σ p = true.
Proof.
  unfold eligible_files, eligible.
  rewrite list_elem_of_In, filter_In, <- list_elem_of_In.
  rewrite andb_true_iff, bool_decide_eq_true. done.
Qed.

Lemma NoDup_eligible_files σ input_dir : NoDup (eligible_files σ input_dir).
Proof.
  unfold eligible_files. apply NoDup_ListNoDup, List.NoDup_filter, NoDup_ListNoDup.
  apply iterdir_NoDup.
Qed.
End eligible_facts.

(** C5.  In a run on an existing directory the files that get a result are
    exactly the entries that [iterdir] lists for the directory (its direct
    children) whose lower-cased suffix is in the fixed list and that are
    regular files; each of them gets exactly one result and nothing else gets
    one, in the sequential and in the pooled strategy alike. *)
Theorem C5_one_result_per_eligible_file {P : Platform} {I : Imaging}
    (σ : fs) (input_dir : Path) (max_side jpeg_quality : Z) :
  Path_exists σ input_dir = true -> Path_is_dir σ input_dir = true ->
  (results (run_events (main input_dir max_side jpeg_quality σ))).*1
    ≡ₚ eligible_files σ input_dir /\
  length (results (run_events (main input_dir max_side jpeg_quality σ)))
    = length (eligible_files σ input_dir) /\
  NoDup (results (run_events (main input_dir max_side jpeg_quality σ))).*1 /\
  (forall p,
     p ∈ (results (run_events (main input_dir max_side jpeg_quality σ))).*1 <->
     p ∈ Path_iterdir σ input_dir /\
     lower (Path_suffix p) ∈ exts /\ Path_is_file σ p = true) /\
  (forall p,
     p ∈ (results (run_events (main input_dir max_side jpeg_quality σ))).*1 ->
     Path_parent p = input_dir).
Proof.
  intros Hex Hdir.
  assert ((results (run_events (main input_dir max_side jpeg_quality σ))).*1
            ≡ₚ eligible_files σ input_dir) as Hperm.
  { destruct (decide (eligible_files σ input_dir = [])) as [E|E].
    - rewrite main_no_images by done. by rewrite E.
    - destruct (is_network_path input_dir) eqn:Hnet.
      + rewrite main_network by done. cbn [run_events].
        change (results (Print ?x :: ?l)) with (results l).
        rewrite results_app, fmap_app, sequential_results. cbn.
        by rewrite app_nil_r.
      + rewrite main_local by done. cbn [run_events].
        change (results (Print ?x :: Executor ?n :: ?l)) with (results l).
        rewrite !results_app, results_submit, !fmap_app, collect_results. cbn.
        rewrite app_nil_r, as_completed_perm, <- list_fmap_compose.
        by rewrite (list_fmap_ext _ id), list_fmap_id by done. }
  split; [done|]. split.
  { rewrite <- (length_fmap fst). by apply Permutation_length. }
  split.
  { rewrite Hperm. apply NoDup_eligible_files. }
  split.
  - intros p. rewrite Hperm. apply elem_of_eligible_files.
  - intros p. rewrite Hperm, elem_of_eligible_files. intros [Hin _].
    by apply iterdir_child in Hin as [? _].
Qed.

Lemma C5_one_result_per_eligible_file_witness :
  (results (run_events (main (P:=Toy.posix) (I:=Toy.imaging) Toy.pics 64 65 Toy.folder))).*1
    ≡ₚ eligible_files (P:=Toy.posix) Toy.folder Toy.pics /\
  length (results (run_events (main (P:=Toy.posix) (I:=Toy.imaging) Toy.pics 64 65 Toy.folder)))
    = 4%nat.
Proof.
  destruct (C5_one_result_per_eligible_file (P:=Toy.posix) (I:=Toy.imaging)
              Toy.folder Toy.pics 64 65) as (Hperm & Hlen & _);
    [vm_compute; reflexivity | vm_compute; reflexivity |].
  split; [exact Hperm|]. rewrite Hlen. vm_compute. reflexivity.
Defined.

(** C6.  One test of [is_network_path] decides the whole run.  On a network
    directory the transforms are plain calls on the calling thread, one file
    after the other in listing order, never two at a time, each result
    printed by the next event, and no process pool is involved.  On a local
    directory nothing is called on the calling thread: one executor is
    created, with as many workers as [os.cpu_count()] reports, or 1 when it
    reports nothing, and every file is submitted to it. *)
Theorem C6_strategy_follows_locality {P : Platform} {I : Imaging}
    (σ : fs) (input_dir : Path) (max_side jpeg_quality : Z) :
  Path_exists σ input_dir = true -> Path_is_dir σ input_dir = true ->
  eligible_files σ input_dir <> [] ->
  (is_network_path input_dir = true ->
     tasks_of (run_events (main input_dir max_side jpeg_quality σ)) =
       map (fun p => (p, output_for (input_dir // "compressed") p))
           (eligible_files σ input_dir) /\
     (results (run_events (main input_dir max_side jpeg_quality σ))).*1 =
       eligible_files σ input_dir /\
     (peak_in_flight 0 (run_events (main input_dir max_side jpeg_quality σ)) <= 1)%nat /\
     forallb (fun ev => negb (pool_event ev))
       (run_events (main input_dir max_side jpeg_quality σ)) = true /\
     streamed (run_events (main input_dir max_side jpeg_quality σ)) = true) /\
  (is_network_path input_dir = false ->
     executors (run_events (main input_dir max_side jpeg_quality σ)) = [cpu_count_or_1] /\
     1 <= cpu_count_or_1 /\
     (forall n, os_cpu_count = Some n -> cpu_count_or_1 = n) /\
     (os_cpu_count = None -> cpu_count_or_1 = 1) /\
     tasks_of (run_events (main input_dir max_side jpeg_quality σ)) =
       map (fun p => (p, output_for (input_dir // "compressed") p))
           (eligible_files σ input_dir) /\
     peak_in_flight 0 (run_events (main input_dir max_side jpeg_quality σ)) = 0%nat).
Proof.
  intros Hex Hdir Hfiles. split; intros Hnet.
  - split; [by rewrite main_tasks, Hex, Hdir|].
    rewrite main_network by done. cbn [run_events].
    split; [|split; [|split]].
    + change (results (Print ?x :: ?l)) with (results l).
      rewrite results_app, fmap_app, sequential_results. cbn. by rewrite app_nil_r.
    + change (peak_in_flight 0 (Print ?x :: ?l)) with (peak_in_flight 0 l).
      by apply sequential_peak.
    + cbn [forallb pool_event negb andb].
      rewrite forallb_app, sequential_no_pool. done.
    + change (streamed (Print ?x :: ?l)) with (streamed l).
      by rewrite sequential_streamed.
  - assert (1 <= cpu_count_or_1 /\
            (forall n, os_cpu_count = Some n -> cpu_count_or_1 = n) /\
            (os_cpu_count = None -> cpu_count_or_1 = 1)) as (Hone & Hsome & Hnone).
    { unfold cpu_count_or_1. pose proof cpu_count_pos as Hpos.
      destruct os_cpu_count as [n|]; [|done].
      specialize (Hpos n eq_refl). destruct n; try lia. repeat split; [lia| |done].
      by intros ? [= <-]. }
    split; [|split; [done|split; [done|split; [done|split]]]].
    + rewrite main_local by done. cbn [run_events].
      change (executors (Print ?x :: Executor ?n :: ?l)) with (n :: executors l).
      by rewrite !executors_app, executors_submit, collect_executors.
    + by rewrite main_tasks, Hex, Hdir.
    + rewrite main_local by done. cbn [run_events].
      change (peak_in_flight 0 (Print ?x :: Executor ?n :: ?l))
        with (peak_in_flight 0 l).
      generalize (as_completed
        (map (fun p => (p, output_for (input_dir // "compressed") p))
             (eligible_files σ input_dir))) as done_.
      induction (map (fun p => (p, output_for (input_dir // "compressed") p))
                     (eligible_files σ input_dir)) as [|t tasks IH]; intros done_.
      * cbn [map app]. generalize σ.
        induction done_ as [|[inp out] done_ IH]; intros σ0; [done|].
        cbn [collect].
        destruct (process_image inp out max_side jpeg_quality σ0) as [σ1 line].
        specialize (IH σ1).
        destruct (collect done_ max_side jpeg_quality σ1) as [σ2 evs].
        cbn in *. exact IH.
      * cbn. apply IH.
Qed.

Lemma C6_strategy_follows_locality_witness :
  executors (run_events (main (P:=Toy.posix) (I:=Toy.imaging) Toy.pics 64 65 Toy.folder))
    = [4] /\
  (peak_in_flight 0
     (run_events (main (P:=Toy.windows) (I:=Toy.imaging) Toy.share_pics 64 65 Toy.share))
   <= 1)%nat /\
  (results (run_events
     (main (P:=Toy.windows) (I:=Toy.imaging) Toy.share_pics 64 65 Toy.share))).*1
    = eligible_files (P:=Toy.windows) Toy.share Toy.share_pics.
Proof.
  destruct (C6_strategy_follows_locality (P:=Toy.posix) (I:=Toy.imaging)
              Toy.folder Toy.pics 64 65) as [_ Hlocal];
    [vm_compute; reflexivity | vm_compute; reflexivity | vm_compute; discriminate |].
  destruct (C6_strategy_follows_locality (P:=Toy.windows) (I:=Toy.imaging)
              Toy.share Toy.share_pics 64 65) as [Hnet _];
    [vm_compute; reflexivity | vm_compute; reflexivity | vm_compute; discriminate |].
  destruct Hlocal as (Hexec & _); [vm_compute; reflexivity|].
  destruct Hnet as (_ & Hres & Hpeak & _); [vm_compute; reflexivity|].
  split; [exact Hexec|]. split; [exact Hpeak|exact Hres].
Defined.

(** ** The claim about is_network_path *)

(** C7.  A path whose text begins with two backslashes is a network path.
    Otherwise, a path with a drive is a network path exactly when
    [GetDriveTypeW] answers [DRIVE_REMOTE] for the root of the drive; a path
    without a drive is local; and when the probe raises, the answer is local.
    The function is the [try] body with every exception mapped to [False]: it
    returns a boolean for every path and leaves the file system alone. *)
Theorem C7_locality_classifier {P : Platform} (path : Path) :
  (String.prefix "\\" (Path_str path) = true -> is_network_path path = true) /\
  (forall t,
     String.prefix "\\" (Path_str path) = false ->
     nonempty (drive_of path) = true ->
     GetDriveTypeW (drive_of path +:+ "\") = Ok t ->
     (is_network_path path = true <-> t = DRIVE_REMOTE)) /\
  (forall e,
     String.prefix "\\" (Path_str path) = false ->
     GetDriveTypeW (drive_of path +:+ "\") = Raise e ->
     is_network_path path = false) /\
  (String.prefix "\\" (Path_str path) = false ->
   nonempty (drive_of path) = false ->
   is_network_path path = false) /\
  (forall e, is_network_path_try path = Raise e -> is_network_path path = false).
Proof.
  unfold is_network_path, is_network_path_try.
  split; [|split; [|split; [|split]]].
  - by intros ->.
  - intros t -> -> ->. cbn. apply Z.eqb_eq.
  - intros e -> ->. by destruct (negb _).
  - by intros -> ->.
  - by intros e ->.
Qed.

Lemma C7_locality_classifier_witness :
  is_network_path (P:=Toy.windows) Toy.share_pics = true /\
  (is_network_path (P:=Toy.windows) Toy.mapped_pics = true <-> 4 = DRIVE_REMOTE) /\
  (is_network_path (P:=Toy.windows) Toy.disk_pics = true <-> 3 = DRIVE_REMOTE) /\
  is_network_path (P:=Toy.posix) Toy.colon = false /\
  is_network_path (P:=Toy.posix) Toy.pics = false.
Proof.
  split; [|split; [|split; [|split]]].
  - apply (C7_locality_classifier (P:=Toy.windows) Toy.share_pics).
    vm_compute; reflexivity.
  - apply (C7_locality_classifier (P:=Toy.windows) Toy.mapped_pics);
      vm_compute; reflexivity.
  - apply (C7_locality_classifier (P:=Toy.windows) Toy.disk_pics);
      vm_compute; reflexivity.
  - apply (proj1 (proj2 (proj2 (C7_locality_classifier (P:=Toy.posix) Toy.colon)))
             (Exn "AttributeError" "module 'ctypes' has no attribute 'windll'"));
      vm_compute; reflexivity.
  - apply (C7_locality_classifier (P:=Toy.posix) Toy.pics);
      vm_compute; reflexivity.
Defined.

(** ** The claim about the exit status *)

(** C8.  The exit status is 1 exactly when the directory does not exist or is
    not a directory; the run then has printed the error line and done nothing
    else.  Otherwise the status is 0: with no eligible file the run prints the
    "No images found" line and does nothing else, and with eligible files it
    processes them all and still ends with status 0, whatever lines the
    transforms returned. *)
Theorem C8_exit_status {P : Platform} {I : Imaging}
    (σ : fs) (input_dir : Path) (max_side jpeg_quality : Z) :
  (run_status (main input_dir max_side jpeg_quality σ) <> 0 <->
     Path_exists σ input_dir = false \/ Path_is_dir σ input_dir = false) /\
  (Path_exists σ input_dir = false \/ Path_is_dir σ input_dir = false ->
     main input_dir max_side jpeg_quality σ =
       Run σ [Print ("Error: input folder not found: " +:+ Path_str input_dir)] 1) /\
  (Path_exists σ input_dir = true -> Path_is_dir σ input_dir = true ->
     eligible_files σ input_dir = [] ->
     main input_dir max_side jpeg_quality σ =
       Run σ [Print ("No images found in: " +:+ Path_str input_dir)] 0) /\
  (Path_exists σ input_dir = true -> Path_is_dir σ input_dir = true ->
     eligible_files σ input_dir <> [] ->
     run_status (main input_dir max_side jpeg_quality σ) = 0 /\
     (results (run_events (main input_dir max_side jpeg_quality σ))).*1
       ≡ₚ eligible_files σ input_dir).
Proof.
  split; [|split; [|split]].
  - destruct (Path_exists σ input_dir) eqn:Hex;
      [destruct (Path_is_dir σ input_dir) eqn:Hdir|].
    + split; [|by intros [|]].
      intros Hstatus. exfalso. apply Hstatus.
      destruct (decide (eligible_files σ input_dir = [])) as [E|E].
      * by rewrite main_no_images.
      * destruct (is_network_path input_dir) eqn:Hnet.
        -- by rewrite main_network.
        -- by rewrite main_local.
    + rewrite main_not_found by auto. split; [auto|done].
    + rewrite main_not_found by auto. split; [auto|done].
  - apply main_not_found.
  - apply main_no_images.
  - intros Hex Hdir E. split.
    + destruct (is_network_path input_dir) eqn:Hnet.
      * by rewrite main_network.
      * by rewrite main_local.
    + destruct (is_network_path input_dir) eqn:Hnet.
      * rewrite main_network by done. cbn [run_events].
        change (results (Print ?x :: ?l)) with (results l).
        rewrite results_app, fmap_app, sequential_results. cbn. by rewrite app_nil_r.
      * rewrite main_local by done. cbn [run_events].
        change (results (Print ?x :: Executor ?n :: ?l)) with (results l).
        rewrite !results_app, results_submit, !fmap_app, collect_results. cbn.
        rewrite app_nil_r, as_completed_perm, <- list_fmap_compose.
        by rewrite (list_fmap_ext _ id), list_fmap_id by done.
Qed.

Lemma C8_exit_status_witness :
  main (P:=Toy.posix) (I:=Toy.imaging) Toy.a_jpg 1280 65 Toy.folder =
    Run Toy.folder [Print "Error: input folder not found: /pics/a.jpg"] 1 /\
  main (P:=Toy.posix) (I:=Toy.imaging) Toy.pics 1280 65 Toy.only_notes =
    Run Toy.only_notes [Print "No images found in: /pics"] 0 /\
  run_status (main (P:=Toy.posix) (I:=Toy.imaging) Toy.pics 1280 65 Toy.folder) = 0.
Proof.
  split; [|split].
  - apply (C8_exit_status (P:=Toy.posix) (I:=Toy.imaging) Toy.folder Toy.a_jpg 1280 65).
    right. vm_compute. reflexivity.
  - apply (C8_exit_status (P:=Toy.posix) (I:=Toy.imaging) Toy.only_notes Toy.pics 1280 65);
      vm_compute; reflexivity.
  - apply (C8_exit_status (P:=Toy.posix) (I:=Toy.imaging) Toy.folder Toy.pics 1280 65);
      vm_compute; (reflexivity || discriminate).
Defined.

(** ** The claim about destinations *)

Section stem_facts.

Lemma substring_all s : substring 0 (String.length s) s = s.
Proof. induction s as [|c s IH]; [done|]. cbn. by rewrite IH. Qed.

Lemma substring_split s i :
  (i <= String.length s)%nat ->
  substring 0 i s +:+ substring i (String.length s - i) s = s.
Proof.
  revert i. induction s as [|c s IH]; intros [|i] Hi; cbn in *; try lia.
  - done.
  - by rewrite substring_all.
  - change (String c (substring 0 i s +:+ substring i (String.length s - i) s)
            = String c s).
    f_equal. apply IH. lia.
Qed.

(** Stem and suffix split the name: the stem is the name without its last
    extension and drops nothing else. *)
Lemma stem_suffix name : name_stem name +:+ name_suffix name = name.
Proof.
  assert (forall s : string, s +:+ "" = s) as Hnil.
  { induction s as [|c s IH]; [done|].
    change (String c (s +:+ "") = String c s). by f_equal. }
  unfold name_stem, name_suffix, split_point.
  destruct (rfind_dot name) as [i|]; [|apply Hnil].
  destruct (0 <? i)%nat eqn:H0; [|apply Hnil].
  destruct (i <? String.length name - 1)%nat eqn:H1; [|apply Hnil].
  cbn [andb]. apply substring_split.
  apply Nat.ltb_lt in H1. lia.
Qed.

End stem_facts.



(** * Further properties of the code *)

(** ** More on the proportional resize *)

Section more_binary64_facts.
Import PyFloat.

(** The side [x] of an image whose longer side is [b < 2^25], scaled by the
    double [a / b] and truncated: the exactly scaled side rounded down, or
    one less. *)
Lemma int_mul_trunc_floor a b x (m : positive) e :
  0 < a < b -> b < 2 ^ 25 ->
  2 ^ 52 <= Z.pos m < 2 ^ 53 -> -105 <= e <= -53 ->
  a * 2 ^ (- e) - b < b * Z.pos m <= a * 2 ^ (- e) + b ->
  0 <= x <= b ->
  exists f n,
    int_mul x (S754_finite false m e) = Ok f /\ to_int f = Ok n /\
    0 <= n <= x /\ b * n <= x * a < b * (n + 2).
Proof.
  intros Hab Hb Hm He [Hlo Hhi] Hx.
  destruct (Z.eq_dec x 0) as [->|Hnz].
  { eexists _, _. cbn. split; [done|]. split; [done|]. lia. }
  destruct (int_mul_trunc_bracket x m e) as (f & n & Hf & Hn & Hnx & Hup & Hdown);
    [lia|done|done|].
  exists f, n. split; [done|]. split; [done|]. split; [done|].
  assert (2 ^ 53 <= 2 ^ (- e)) as HT by (apply Z.pow_le_mono_r; lia).
  set (T := 2 ^ (- e)) in *. set (M := Z.pos m) in *.
  change (2 ^ 53) with 9007199254740992 in *.
  change (2 ^ 52) with 4503599627370496 in *.
  change (2 ^ 25) with 33554432 in *.
  assert (x * a <= 1125899906842624) as Hxa by (clear - Hx Hab Hb; nia).
  assert (x * b <= 1125899906842624) as Hxb by (clear - Hx Hab Hb; nia).
  assert (x * a * T <= 1125899906842624 * T) as HxaT
    by (apply Z.mul_le_mono_nonneg_r; lia).
  assert (0 <= x * a) as Hxa0 by (clear - Hx Hab; nia).
  split.
  - destruct (Z_le_gt_dec (b * n) (x * a)) as [|Hgt]; [done|exfalso].
    assert ((x * a + 1) * T * 4503599627370496 <= b * (n * T * 4503599627370496)) as H1.
    { replace (b * (n * T * 4503599627370496)) with (b * n * T * 4503599627370496) by ring.
      apply Z.mul_le_mono_nonneg_r; [lia|]. apply Z.mul_le_mono_nonneg_r; lia. }
    assert (b * (x * M * 4503599627370497) <= x * (a * T + b) * 4503599627370497) as H2.
    { replace (b * (x * M * 4503599627370497)) with (x * (b * M) * 4503599627370497) by ring.
      apply Z.mul_le_mono_nonneg_r; [lia|]. apply Z.mul_le_mono_nonneg_l; lia. }
    assert (b * (n * T * 4503599627370496) <= b * (x * M * 4503599627370497)) as H3
      by (apply Z.mul_le_mono_nonneg_l; lia).
    clear - H1 H2 H3 Hxa Hxb HxaT HT Hxa0. nia.
  - destruct (Z_lt_le_dec (x * a) (b * (n + 2))) as [|Hge]; [done|exfalso].
    assert (b * ((n + 1) * T * 4503599627370496) <= (x * a - b) * T * 4503599627370496) as H1.
    { replace (b * ((n + 1) * T * 4503599627370496))
        with (b * (n + 1) * T * 4503599627370496) by ring.
      apply Z.mul_le_mono_nonneg_r; [lia|]. apply Z.mul_le_mono_nonneg_r; lia. }
    assert (x * (a * T - b) * 4503599627370495 <= b * (x * M * 4503599627370495)) as H2.
    { replace (b * (x * M * 4503599627370495)) with (x * (b * M) * 4503599627370495) by ring.
      apply Z.mul_le_mono_nonneg_r; [lia|]. apply Z.mul_le_mono_nonneg_l; lia. }
    assert (b * (x * M * 4503599627370495) < b * ((n + 1) * T * 4503599627370496)) as H3
      by (apply Z.mul_lt_mono_pos_l; lia).
    assert (b * T * 4503599627370496 >= T * 4503599627370496) as H4
      by (clear - Hab HT; nia).
    assert (x * b * 4503599627370496 <= 1125899906842624 * 4503599627370496) as H5
      by (clear - Hxb; nia).
    clear - H1 H2 H3 H4 H5 Hxa Hxb HxaT HT Hxa0 Hab Hx. nia.
Qed.

(** Rounding keeps the sign: from a mantissa that is not negative it yields a
    zero, a finite number or an infinity of the sign it was given. *)
Lemma shr_fexp_nonneg m e l :
  0 <= m -> 0 <= shr_m (shr_fexp prec emax m e l).1.
Proof.
  intros Hm. unfold shr_fexp, shr.
  destruct (fexp prec emax (Zdigits2 m + e) - e) as [|n|n]; cbn [fst];
    rewrite ?shr_record_of_loc_m; try done.
  rewrite iter_pos_nat, shr_iter_m by (by rewrite shr_record_of_loc_m).
  rewrite shr_record_of_loc_m. apply Z.div_pos; [done|].
  apply Z.pow_pos_nonneg; lia.
Qed.

Lemma binary_round_aux_shape s m e l :
  0 <= m ->
  binary_round_aux prec emax s m e l = S754_zero s \/
  binary_round_aux prec emax s m e l = S754_infinity s \/
  exists m' e', binary_round_aux prec emax s m e l = S754_finite s m' e'.
Proof.
  intros Hm. unfold binary_round_aux.
  pose proof (shr_fexp_nonneg m e l Hm) as H1.
  destruct (shr_fexp prec emax m e l) as [mrs1 e1]. cbn [fst] in H1.
  pose proof (round_nearest_even_bounds (shr_m mrs1) (loc_of_shr_record mrs1)) as Hr.
  pose proof (shr_fexp_nonneg
                (round_nearest_even (shr_m mrs1) (loc_of_shr_record mrs1))
                e1 loc_Exact ltac:(lia)) as H2.
  destruct (shr_fexp prec emax _ e1 loc_Exact) as [mrs2 e2]. cbn [fst] in H2.
  destruct (shr_m mrs2) as [|p|p]; [by left| |lia].
  destruct (e2 <=? emax - prec); [right; right; by eexists _, _|right; by left].
Qed.

Lemma SFdiv_core_nonneg (a b : positive) :
  0 <= (SFdiv_core_binary prec emax (Z.pos a) 0 (Z.pos b) 0).1.1.
Proof.
  unfold SFdiv_core_binary.
  set (m' := match _ with 0 => Z.pos a | Z.pos _ => _ | Z.neg _ => 0 end).
  assert (0 <= m') as Hm'.
  { subst m'. destruct (0 - 0 - _) as [|sp|sp]; [lia| |lia].
    apply Z.shiftl_nonneg. lia. }
  pose proof (Z_div_mod m' (Z.pos b) ltac:(lia)) as Hdm.
  destruct (Z.div_eucl m' (Z.pos b)) as [q r]. cbn [fst]. nia.
Qed.

(** [int(x)] of a number of negative sign is never positive. *)
Lemma to_int_negative f n :
  (f = S754_zero true \/ exists m e, f = S754_finite true m e) ->
  to_int f = Ok n -> n <= 0.
Proof.
  intros [->|(m & e & ->)]; cbn [to_int]; intros [= <-]; [lia|].
  destruct e as [|e|e]; [lia| |].
  - assert (0 < 2 ^ Z.pos e) by (apply Z.pow_pos_nonneg; lia). nia.
  - assert (0 <= Z.pos m / 2 ^ Z.pos e); [|lia].
    apply Z.div_pos; [lia|]. apply Z.pow_pos_nonneg; lia.
Qed.

(** [x * ratio] truncated, for a ratio that is zero or negative. *)
Lemma int_mul_trunc_nonpositive x ratio f n :
  0 <= x < 2 ^ 53 ->
  (ratio = S754_zero false \/ ratio = S754_zero true \/
   exists m e, ratio = S754_finite true m e) ->
  int_mul x ratio = Ok f -> to_int f = Ok n -> n <= 0.
Proof.
  intros Hx Hratio. unfold int_mul.
  assert (of_int x = Ok (S754_zero false) \/
          exists mx ex, of_int x = Ok (S754_finite false mx ex)) as [->|(mx & ex & ->)].
  { destruct (Z.eq_dec x 0) as [->|Hnz]; [by left|right].
    destruct (of_int_exact x ltac:(lia)) as (mx & -> & _). by eexists _, _. }
  - cbn [rbind].
    destruct Hratio as [->|[->|(m & e & ->)]]; cbn [SFmul xorb];
      intros [= <-] [= <-]; lia.
  - cbn [rbind].
    destruct Hratio as [->|[->|(m & e & ->)]]; cbn [SFmul xorb].
    + intros [= <-] [= <-]. lia.
    + intros [= <-] [= <-]. lia.
    + destruct (binary_round_aux_shape true (Z.pos (mx * m)) (ex + e) loc_Exact)
        as [->|[->|(m' & e' & ->)]]; [lia| | |]; intros [= <-].
      * intros [= <-]. lia.
      * done.
      * apply to_int_negative. right. by eexists _, _.
Qed.

(** [a / b] for [a < 0 < b]: a double of negative sign, if any. *)
Lemma int_truediv_negative a b ratio :
  a < 0 -> 0 < b -> int_truediv a b = Ok ratio ->
  ratio = S754_zero true \/ exists m e, ratio = S754_finite true m e.
Proof.
  intros Ha Hb. destruct a as [|a|a]; try lia. destruct b as [|b|b]; try lia.
  unfold int_truediv. cbn [Z.ltb Z.compare SFdiv xorb].
  change (Z.to_pos (Z.abs (Z.neg a))) with a.
  change (Z.to_pos (Z.abs (Z.pos b))) with b.
  pose proof (SFdiv_core_nonneg a b) as Hq.
  destruct (SFdiv_core_binary prec emax (Z.pos a) 0 (Z.pos b) 0) as [[q e] l].
  cbn [fst] in Hq.
  destruct (binary_round_aux_shape true q e l Hq) as [->|[->|(m' & e' & ->)]].
  - intros [= <-]. by left.
  - done.
  - intros [= <-]. right. by eexists _, _.
Qed.

End more_binary64_facts.

Section more_resize_facts.

(** The step computes a new size only for an image whose longer side exceeds
    [max_side]. *)
Lemma resize_target_some_beyond w h max_side sz :
  0 <= w -> 0 <= h ->
  resize_target w h max_side = Ok (Some sz) -> max_side < Z.max w h.
Proof.
  intros Hw Hh Htarget.
  destruct (Z_lt_le_dec max_side (Z.max w h)) as [|Hle]; [done|exfalso].
  destruct (resize_target_within w h max_side Hw Hh Hle)
    as [Heq|[[_ Heq]|[_ Heq]]]; congruence.
Qed.

(** Both sides of the new size, as the exact quotients rounded down or one
    less. *)
Lemma resize_target_floor w h max_side :
  0 <= w < 2 ^ 25 -> 0 <= h < 2 ^ 25 -> 0 < max_side < Z.max w h ->
  exists nw nh,
    resize_target w h max_side = Ok (Some (nw, nh)) /\
    (0 <= nw /\ Z.max w h * nw <= w * max_side < Z.max w h * (nw + 2)) /\
    (0 <= nh /\ Z.max w h * nh <= h * max_side < Z.max w h * (nh + 2)).
Proof.
  intros Hw Hh Hmax.
  destruct (int_truediv_bracket max_side (Z.max w h)) as (m & e & Hdiv & Hm & He & Hbr);
    [lia|change (2 ^ 53) with (2 ^ 25 * 2 ^ 28); lia|].
  destruct (int_mul_trunc_floor max_side (Z.max w h) w m e)
    as (fw & nw & Hfw & Hnw & Hw1 & Hw2); [lia|lia|done|done|done|lia|].
  destruct (int_mul_trunc_floor max_side (Z.max w h) h m e)
    as (fh & nh & Hfh & Hnh & Hh1 & Hh2); [lia|lia|done|done|done|lia|].
  exists nw, nh. split.
  - unfold resize_target. rewrite Hdiv. cbn [rbind].
    assert (PyFloat.lt_int (S754_finite false m e) 1 = true) as ->.
    { rewrite lt_int_1. unfold SFltb, PyFloat.one, SFcompare.
      destruct (Z.compare_spec e (-52)); [lia|done|lia]. }
    rewrite Hfw. cbn [rbind]. rewrite Hnw. cbn [rbind].
    rewrite Hfh. cbn [rbind]. rewrite Hnh. done.
  - split; (split; [lia|done]).
Qed.

End more_resize_facts.

(** X1.  Each side of the new size is the exactly scaled side,
    [side * max_side / max(w, h)], rounded down, or one pixel less: the
    aspect ratio is kept to within a pixel.  (Sides below 2^25.) *)
Theorem resize_sides_within_one_pixel (w h max_side nw nh : Z) :
  0 <= w < 2 ^ 25 -> 0 <= h < 2 ^ 25 -> 0 < max_side ->
  resize_target w h max_side = Ok (Some (nw, nh)) ->
  (Z.max w h * nw <= w * max_side < Z.max w h * (nw + 2)) /\
  (Z.max w h * nh <= h * max_side < Z.max w h * (nh + 2)).
Proof.
  intros Hw Hh Hmax Htarget.
  pose proof (resize_target_some_beyond w h max_side _ ltac:(lia) ltac:(lia) Htarget).
  destruct (resize_target_floor w h max_side Hw Hh ltac:(lia))
    as (nw' & nh' & Heq & [_ Hnw] & [_ Hnh]).
  rewrite Heq in Htarget. by injection Htarget as <- <-.
Qed.

Lemma resize_sides_within_one_pixel_witness :
  (Z.max 4000 3000 * 1280 <= 4000 * 1280 < Z.max 4000 3000 * (1280 + 2)) /\
  (Z.max 4000 3000 * 960 <= 3000 * 1280 < Z.max 4000 3000 * (960 + 2)).
Proof.
  apply (resize_sides_within_one_pixel 4000 3000 1280 1280 960);
    [lia | lia | lia | vm_compute; reflexivity].
Defined.

(** X2.  A side so short that its exactly scaled length is below one pixel
    becomes 0: for such an image line 72 asks [img.resize] for a size with a
    zero in it. *)
Theorem resize_thin_side_becomes_zero (w h max_side : Z) :
  0 < max_side < w -> w < 2 ^ 25 -> 0 <= h -> h * max_side < w ->
  exists nw,
    resize_target w h max_side = Ok (Some (nw, 0)) /\
    max_side - 1 <= nw <= max_side.
Proof.
  intros Hmax Hw Hh Hthin.
  assert (h <= w) as Hhw by nia.
  destruct (resize_target_floor w h max_side ltac:(lia) ltac:(lia) ltac:(lia))
    as (nw & nh & Heq & [Hnw0 Hnw] & [Hnh0 Hnh]).
  destruct (resize_target_longer_side w h max_side)
    as (nw' & nh' & Heq' & _ & _ & Hside);
    [change (2 ^ 53) with (2 ^ 25 * 2 ^ 28); lia
    |change (2 ^ 53) with (2 ^ 25 * 2 ^ 28); lia
    |lia
    |change (2 ^ 50) with (2 ^ 25 * 2 ^ 25); lia|].
  rewrite Heq in Heq'. injection Heq' as <- <-.
  replace (Z.max w h) with w in * by lia.
  assert (nh = 0) as -> by nia.
  exists nw. split; [done|]. lia.
Qed.

Lemma resize_thin_side_becomes_zero_witness :
  exists nw,
    resize_target 5000 2 1280 = Ok (Some (nw, 0)) /\ 1280 - 1 <= nw <= 1280.
Proof. apply (resize_thin_side_becomes_zero 5000 2 1280); lia. Defined.

(** X3.  A size that the step has computed needs no further resizing: on an
    image of the new size the step keeps the image, so running the script
    over its own output changes no dimension. *)
Theorem resize_is_idempotent (w h max_side nw nh : Z) :
  0 <= w < 2 ^ 53 -> 0 <= h < 2 ^ 53 -> 2 <= max_side <= 2 ^ 50 ->
  resize_target w h max_side = Ok (Some (nw, nh)) ->
  resize_target nw nh max_side = Ok None.
Proof.
  intros Hw Hh Hmax Htarget.
  pose proof (resize_target_some_beyond w h max_side _ ltac:(lia) ltac:(lia) Htarget).
  destruct (resize_target_longer_side w h max_side Hw Hh ltac:(lia) ltac:(lia))
    as (nw' & nh' & Heq & Hnw & Hnh & Hside).
  rewrite Heq in Htarget. injection Htarget as <- <-.
  destruct (resize_target_within nw' nh' max_side ltac:(lia) ltac:(lia) ltac:(lia))
    as [Hnone|[[Hz _]|[Hbig _]]]; [done|lia|].
  assert (2 ^ 50 < 2 ^ 1023) by (apply Z.pow_lt_mono_r; lia). lia.
Qed.

Lemma resize_is_idempotent_witness :
  resize_target 1279 598 1280 = Ok None.
Proof.
  apply (resize_is_idempotent 2139 1000 1280 1279 598);
    [lia | lia | lia | vm_compute; reflexivity].
Defined.

(** X4.  With a [max_side] of zero or less no image is left as it is, and a
    size that the step computes has no positive side: every image is sent to
    [img.resize] with a size Pillow cannot make. *)
Theorem resize_with_nonpositive_max_side (w h max_side : Z) :
  0 <= w < 2 ^ 53 -> 0 <= h < 2 ^ 53 -> max_side <= 0 ->
  resize_target w h max_side <> Ok None /\
  forall nw nh,
    resize_target w h max_side = Ok (Some (nw, nh)) -> nw <= 0 /\ nh <= 0.
Proof.
  intros Hw Hh Hmax. unfold resize_target.
  destruct (Z.eq_dec (Z.max w h) 0) as [Hz|Hnz].
  { rewrite Hz. by destruct max_side. }
  destruct (PyFloat.int_truediv max_side (Z.max w h)) as [ratio|e] eqn:Hdiv;
    cbn [rbind]; [|done].
  assert (ratio = S754_zero false \/ ratio = S754_zero true \/
          exists m e, ratio = S754_finite true m e) as Hratio.
  { destruct (Z.eq_dec max_side 0) as [->|Hneg].
    - left. unfold PyFloat.int_truediv in Hdiv.
      destruct (Z.max w h) as [|b|b] eqn:Hb; [done| |lia].
      by injection Hdiv as <-.
    - right. apply (int_truediv_negative max_side (Z.max w h)); (done || lia). }
  assert (PyFloat.lt_int ratio 1 = true) as ->.
  { by destruct Hratio as [->|[->|(m & e & ->)]]. }
  destruct (PyFloat.int_mul w ratio) as [fw|?] eqn:Hfw; cbn [rbind]; [|done].
  destruct (PyFloat.to_int fw) as [nw'|?] eqn:Hnw; cbn [rbind]; [|done].
  destruct (PyFloat.int_mul h ratio) as [fh|?] eqn:Hfh; cbn [rbind]; [|done].
  destruct (PyFloat.to_int fh) as [nh'|?] eqn:Hnh; cbn [rbind]; [|done].
  split; [done|]. intros nw nh [= <- <-]. split.
  - by eapply (int_mul_trunc_nonpositive w ratio).
  - by eapply (int_mul_trunc_nonpositive h ratio).
Qed.

Lemma resize_with_nonpositive_max_side_witness :
  resize_target 640 480 0 <> Ok None /\
  forall nw nh, resize_target 640 480 0 = Ok (Some (nw, nh)) -> nw <= 0 /\ nh <= 0.
Proof. apply (resize_with_nonpositive_max_side 640 480 0); lia. Defined.

(** ** More on process_image *)

Section more_process_image_facts.
Context {P : Platform} {I : Imaging}.
Implicit Types (σ : fs) (input_path output_path : Path) (max_side jpeg_quality : Z).

(** An image in a mode that needs no conversion and of a size within the
    bound goes through lines 65-72 as [exif_transpose] returned it. *)
Lemma prepare_small img img1 max_side :
  exif_transpose img = Ok img1 ->
  img_mode img1 ∉ ["RGBA"; "LA"; "P"]%string ->
  0 <= (img_size img1).1 -> 0 <= (img_size img1).2 ->
  0 < Z.max (img_size img1).1 (img_size img1).2 <= max_side ->
  max_side < 2 ^ 1023 ->
  prepare img max_side = Ok img1.
Proof.
  intros Ht Hmode Hw Hh Hmax Hbig.
  unfold prepare. rewrite Ht. cbn [rbind].
  unfold normalize_mode. rewrite bool_decide_eq_false_2 by done. cbn [rbind].
  unfold resize_step. destruct (img_size img1) as [w h]. cbn [fst snd] in *.
  destruct (resize_target_within w h max_side Hw Hh ltac:(lia))
    as [->|[[Hz _]|[Hov _]]]; [done|lia|lia].
Qed.

Lemma prefix_app (s t : string) : String.prefix s (s +:+ t) = true.
Proof.
  induction s as [|a s IH]; [by destruct t|].
  change (String a s +:+ t) with (String a (s +:+ t)). cbn [String.prefix].
  by destruct (ascii_dec a a).
Qed.

(** A transform that fails before line 74 returns a failure line and leaves
    the file system as it was. *)
Lemma process_image_fails_early σ input_path output_path max_side jpeg_quality :
  fails_early σ input_path max_side ->
  exists e,
    process_image input_path output_path max_side jpeg_quality σ =
    (σ, err_line input_path e).
Proof.
  intros (e & Hfail). exists e. unfold process_image.
  rewrite process_image_try_eq.
  destruct Hfail as [->|(img & -> & ->)]; done.
Qed.

(** A transform changes no file but its destination, if a failing [save]
    does not. *)
Lemma process_image_frame σ σ' input_path output_path max_side jpeg_quality line :
  failing_save_is_local ->
  process_image input_path output_path max_side jpeg_quality σ = (σ', line) ->
  forall q, q <> output_path -> fs_files σ' !! q = fs_files σ !! q.
Proof.
  intros Hlocal Hrun q Hq. unfold process_image in Hrun.
  rewrite process_image_try_eq in Hrun.
  destruct (Image_open σ input_path) as [img|e0]; [|by simplify_eq].
  destruct (prepare img max_side) as [img'|e1]; [|by simplify_eq].
  destruct (Path_mkdir (Path_parent output_path) σ) as [σ1 [[]|e2]] eqn:Hm.
  - destruct (save img' output_path (captured_kwargs img jpeg_quality) σ1)
      as [σ2 [[]|e3]] eqn:Hs; injection Hrun as <- _.
    + apply save_ok in Hs as [_ ->].
      rewrite lookup_insert_ne by done. by rewrite (mkdir_files _ _ _ _ Hm).
    + rewrite (Hlocal _ _ _ _ _ _ Hs q Hq). by rewrite (mkdir_files _ _ _ _ Hm).
  - injection Hrun as <- _. by rewrite (mkdir_files _ _ _ _ Hm).
Qed.

End more_process_image_facts.

(** X5.  Whatever the metadata, [img.save] is asked for a JPEG, at the
    quality that was passed in and with [optimize] on; besides these three
    the keyword arguments hold at most [exif] and [icc_profile]. *)
Theorem save_kwargs_fixed_entries (exif_data : bytes) (icc_profile : option bytes)
    (jpeg_quality : Z) :
  save_kwargs exif_data icc_profile jpeg_quality !! "format"%string
    = Some (VStr "JPEG") /\
  save_kwargs exif_data icc_profile jpeg_quality !! "quality"%string
    = Some (VInt jpeg_quality) /\
  save_kwargs exif_data icc_profile jpeg_quality !! "optimize"%string
    = Some (VBool true) /\
  forall k,
    is_Some (save_kwargs exif_data icc_profile jpeg_quality !! k) ->
    k ∈ ["format"; "quality"; "optimize"; "exif"; "icc_profile"]%string.
Proof.
  unfold save_kwargs, add_icc, add_exif, save_kwargs_base.
  destruct icc_profile as [[|c icc]|], exif_data as [|b bs];
    (split; [done|split; [done|split; [done|]]]);
    intros k [v Hk];
    repeat (apply lookup_insert_Some in Hk as [[<- _]|[_ Hk]];
            [set_solver|]);
    apply lookup_singleton_Some in Hk as [<- _]; set_solver.
Qed.

(** X6.  A picture that is already small enough and in a mode that JPEG
    takes is neither converted nor resized: what is saved is the image as
    [exif_transpose] returned it, with the metadata of the opened file. *)
Theorem small_image_saved_as_oriented {P : Platform} {I : Imaging}
    (σ σ1 : fs) (input_path output_path : Path) (max_side jpeg_quality : Z)
    (img img1 : image) :
  Image_open σ input_path = Ok img ->
  exif_transpose img = Ok img1 ->
  img_mode img1 ∉ ["RGBA"; "LA"; "P"]%string ->
  0 <= (img_size img1).1 -> 0 <= (img_size img1).2 ->
  0 < Z.max (img_size img1).1 (img_size img1).2 <= max_side ->
  max_side < 2 ^ 1023 ->
  Path_mkdir (Path_parent output_path) σ = (σ1, Ok tt) ->
  process_image_try input_path output_path max_side jpeg_quality σ =
  save img1 output_path (captured_kwargs img jpeg_quality) σ1.
Proof.
  intros Ho Ht Hmode Hw Hh Hmax Hbig Hm.
  rewrite process_image_try_eq, Ho.
  rewrite (prepare_small img img1 max_side) by done.
  by rewrite Hm.
Qed.

Lemma small_image_saved_as_oriented_witness :
  process_image_try (P:=Toy.posix) (I:=Toy.imaging)
    Toy.small_jpg Toy.small_out 1280 65 Toy.small_folder =
  save (Imaging:=Toy.imaging) Toy.small_opened Toy.small_out
    (captured_kwargs (I:=Toy.imaging) Toy.small_opened 65)
    (FS ({[ Toy.compressed ]} ∪ fs_dirs Toy.small_folder) (fs_files Toy.small_folder)).
Proof.
  apply (small_image_saved_as_oriented (P:=Toy.posix) (I:=Toy.imaging)
           Toy.small_folder _ Toy.small_jpg Toy.small_out 1280 65
           Toy.small_opened Toy.small_opened).
  - vm_compute; reflexivity.
  - reflexivity.
  - cbn. rewrite !elem_of_cons, elem_of_nil. intros [|[|[|[]]]]; discriminate.
  - cbn; lia.
  - cbn; lia.
  - cbn; lia.
  - cbn. assert (2 ^ 11 < 2 ^ 1023) by (apply Z.pow_lt_mono_r; lia). lia.
  - reflexivity.
Defined.

(** X7.  The returned line begins with "[OK] " exactly when nothing raised
    inside the [try]; the destination is then a file and its directory
    exists. *)
Theorem ok_line_means_written {P : Platform} {I : Imaging}
    (σ σ' : fs) (input_path output_path : Path) (max_side jpeg_quality : Z)
    (line : string) :
  process_image input_path output_path max_side jpeg_quality σ = (σ', line) ->
  (String.prefix "[OK] " line = true <->
   process_image_try input_path output_path max_side jpeg_quality σ = (σ', Ok tt)) /\
  (String.prefix "[OK] " line = true ->
   Path_is_file σ' output_path = true /\
   Path_is_dir σ' (Path_parent output_path) = true).
Proof.
  unfold process_image. intros Hrun.
  destruct (process_image_try input_path output_path max_side jpeg_quality σ)
    as [σ2 [[]|e]] eqn:Htry; injection Hrun as <- <-.
  - split; [split; [done|intros _; apply prefix_app]|]. intros _.
    apply try_ok_inv in Htry as (img & img' & _ & _ & Hf & _ & Hd).
    unfold Path_is_file, Path_is_dir. rewrite Hf, lookup_insert_eq.
    split; [by apply bool_decide_eq_true_2|by apply bool_decide_eq_true_2].
  - split; [split; [intros [=]|intros [=]]|intros [=]].
Qed.

Lemma ok_line_means_written_witness :
  Path_is_file Toy.folder_a_done Toy.a_out = true /\
  Path_is_dir Toy.folder_a_done (Path_parent Toy.a_out) = true.
Proof.
  apply (ok_line_means_written (P:=Toy.posix) (I:=Toy.imaging)
           Toy.folder Toy.folder_a_done Toy.a_jpg Toy.a_out 64 65
           "[OK] a.jpg -> a.jpg");
    vm_compute; reflexivity.
Defined.

(** ** More on main *)

Section more_loop_facts.
Context {P : Platform} {I : Imaging}.

Lemma Path_parent_joinpath (p : Path) (child : string) : Path_parent (p // child) = p.
Proof. unfold Path_parent, joinpath. apply removelast_last. Qed.

Lemma printed_app tr tl : printed (tr ++ tl) = printed tr ++ printed tl.
Proof. apply omap_app. Qed.

Lemma printed_submit (tasks : list (Path * Path)) :
  printed (map (fun t => Submit t.1 t.2) tasks) = [].
Proof. by induction tasks. Qed.

Lemma sequential_printed files output_dir max_side jpeg_quality σ :
  printed (sequential files output_dir max_side jpeg_quality σ).2 =
  (results (sequential files output_dir max_side jpeg_quality σ).2).*2.
Proof.
  revert σ. induction files as [|p rest IH]; intros σ; [done|].
  cbn [sequential].
  destruct (process_image p _ max_side jpeg_quality σ) as [σ1 line].
  specialize (IH σ1).
  destruct (sequential rest output_dir max_side jpeg_quality σ1) as [σ2 evs].
  cbn in *. by rewrite IH.
Qed.

Lemma collect_printed (done : list (Path * Path)) max_side jpeg_quality σ :
  printed (collect done max_side jpeg_quality σ).2 =
  (results (collect done max_side jpeg_quality σ).2).*2.
Proof.
  revert σ. induction done as [|[inp out] rest IH]; intros σ; [done|].
  cbn [collect].
  destruct (process_image inp out max_side jpeg_quality σ) as [σ1 line].
  specialize (IH σ1).
  destruct (collect rest max_side jpeg_quality σ1) as [σ2 evs].
  cbn in *. by rewrite IH.
Qed.

(** The pool loop over the tasks in listing order goes through the same
    states and lines as the sequential loop. *)
Lemma collect_sequential files output_dir max_side jpeg_quality σ :
  (collect (map (fun p => (p, output_for output_dir p)) files)
     max_side jpeg_quality σ).1 =
  (sequential files output_dir max_side jpeg_quality σ).1 /\
  results (collect (map (fun p => (p, output_for output_dir p)) files)
     max_side jpeg_quality σ).2 =
  results (sequential files output_dir max_side jpeg_quality σ).2.
Proof.
  revert σ. induction files as [|p rest IH]; intros σ; [done|].
  cbn [sequential collect map].
  destruct (process_image p _ max_side jpeg_quality σ) as [σ1 line].
  specialize (IH σ1).
  destruct (sequential rest output_dir max_side jpeg_quality σ1) as [σ2 evs].
  destruct (collect _ max_side jpeg_quality σ1) as [σ2' evs'].
  cbn in *. destruct IH as [-> ->]. done.
Qed.

(** Both loops leave alone every file that is not a destination. *)
Lemma collect_frame (done : list (Path * Path)) max_side jpeg_quality σ q :
  failing_save_is_local ->
  q ∉ done.*2 ->
  fs_files (collect done max_side jpeg_quality σ).1 !! q = fs_files σ !! q.
Proof.
  intros Hlocal. revert σ.
  induction done as [|[inp out] rest IH]; intros σ Hq; [done|].
  cbn [collect].
  destruct (process_image inp out max_side jpeg_quality σ) as [σ1 line] eqn:Hrun.
  specialize (IH σ1).
  destruct (collect rest max_side jpeg_quality σ1) as [σ2 evs].
  cbn in *. apply not_elem_of_cons in Hq as [Hne Hq].
  rewrite IH by done. by eapply process_image_frame.
Qed.

Lemma sequential_frame files output_dir max_side jpeg_quality σ q :
  failing_save_is_local ->
  Path_parent q <> output_dir ->
  fs_files (sequential files output_dir max_side jpeg_quality σ).1 !! q =
  fs_files σ !! q.
Proof.
  intros Hlocal Hq.
  rewrite <- (proj1 (collect_sequential files output_dir max_side jpeg_quality σ)).
  apply collect_frame; [done|].
  rewrite <- list_fmap_compose, list_elem_of_fmap.
  intros (p & -> & _). apply Hq. apply Path_parent_joinpath.
Qed.

(** Both loops leave the file system as it is when every transform fails
    before line 74. *)
Lemma collect_all_fail_early (done : list (Path * Path)) max_side jpeg_quality σ :
  (forall t, t ∈ done -> fails_early σ t.1 max_side) ->
  (collect done max_side jpeg_quality σ).1 = σ.
Proof.
  induction done as [|[inp out] rest IH]; intros Hall; [done|].
  cbn [collect].
  destruct (process_image_fails_early σ inp out max_side jpeg_quality) as [e ->].
  { apply (Hall (inp, out)). by left. }
  destruct (collect rest max_side jpeg_quality σ) as [σ2 evs] eqn:Hrest.
  cbn in *. apply IH. intros t Ht. apply Hall. by right.
Qed.

End more_loop_facts.

(** The miniature codec fails without touching the file system. *)
Lemma toy_failing_save_is_local : failing_save_is_local (I:=Toy.imaging).
Proof.
  intros img p kw σ σ' e. cbn. unfold Toy.save_.
  case_bool_decide; intros [= <-]; done.
Qed.

(** X8.  A run never writes outside [compressed]: as long as a failing
    [save] touches nothing but its destination, every path that is not
    directly inside [input_dir/compressed] holds after the run what it held
    before, and so does every entry of the input directory: the sources are
    never modified. *)
Theorem run_writes_only_into_compressed {P : Platform} {I : Imaging}
    (σ : fs) (input_dir : Path) (max_side jpeg_quality : Z) :
  failing_save_is_local ->
  (forall q,
     Path_parent q <> input_dir // "compressed" ->
     fs_files (run_fs (main input_dir max_side jpeg_quality σ)) !! q =
     fs_files σ !! q) /\
  (forall p,
     p ∈ Path_iterdir σ input_dir ->
     fs_files (run_fs (main input_dir max_side jpeg_quality σ)) !! p =
     fs_files σ !! p).
Proof.
  intros Hlocal.
  assert (forall q,
     Path_parent q <> input_dir // "compressed" ->
     fs_files (run_fs (main input_dir max_side jpeg_quality σ)) !! q =
     fs_files σ !! q) as Hframe.
  { intros q Hq.
    destruct (Path_exists σ input_dir) eqn:Hex;
      [destruct (Path_is_dir σ input_dir) eqn:Hdir|];
      [|by rewrite main_not_found by auto..].
    destruct (decide (eligible_files σ input_dir = [])) as [E|E];
      [by rewrite main_no_images|].
    destruct (is_network_path input_dir) eqn:Hnet.
    - rewrite main_network by done. cbn [run_fs]. by apply sequential_frame.
    - rewrite main_local by done. cbn [run_fs]. apply collect_frame; [done|].
      rewrite as_completed_perm, <- list_fmap_compose, list_elem_of_fmap.
      intros (p & -> & _). apply Hq. apply Path_parent_joinpath. }
  split; [done|].
  intros p [Hpar _]%iterdir_child. apply Hframe. rewrite Hpar.
  unfold joinpath. intros Heq%(f_equal length).
  rewrite length_app in Heq. cbn in Heq. lia.
Qed.

Lemma run_writes_only_into_compressed_witness :
  fs_files (run_fs (main (P:=Toy.posix) (I:=Toy.imaging) Toy.pics 64 65 Toy.folder))
    !! Toy.a_jpg =
  fs_files Toy.folder !! Toy.a_jpg.
Proof.
  apply (proj1 (run_writes_only_into_compressed (P:=Toy.posix) (I:=Toy.imaging)
                  Toy.folder Toy.pics 64 65 toy_failing_save_is_local)).
  vm_compute. discriminate.
Defined.

(** X9.  What a processing run prints: the line announcing the mode, then
    the result lines of the transforms, one per result and in the order of
    the results, then the elapsed time; nothing else. *)
Theorem run_prints_mode_results_elapsed {P : Platform} {I : Imaging}
    (σ : fs) (input_dir : Path) (max_side jpeg_quality : Z) :
  Path_exists σ input_dir = true -> Path_is_dir σ input_dir = true ->
  eligible_files σ input_dir <> [] ->
  printed (run_events (main input_dir max_side jpeg_quality σ)) =
  (if is_network_path input_dir
   then network_mode_line input_dir
   else local_mode_line cpu_count_or_1 input_dir)
    :: (results (run_events (main input_dir max_side jpeg_quality σ))).*2
    ++ [elapsed_line].
Proof.
  intros Hex Hdir E.
  destruct (is_network_path input_dir) eqn:Hnet.
  - rewrite main_network by done. cbn [run_events].
    change (printed (Print ?x :: ?l)) with (x :: printed l).
    change (results (Print ?x :: ?l)) with (results l).
    rewrite printed_app, results_app, fmap_app, sequential_printed. cbn.
    by rewrite app_nil_r.
  - rewrite main_local by done. cbn [run_events].
    change (printed (Print ?x :: Executor ?n :: ?l)) with (x :: printed l).
    change (results (Print ?x :: Executor ?n :: ?l)) with (results l).
    rewrite !printed_app, !results_app, printed_submit, results_submit, !fmap_app.
    rewrite collect_printed. cbn. by rewrite app_nil_r.
Qed.

Lemma run_prints_mode_results_elapsed_witness :
  printed (run_events (main (P:=Toy.windows) (I:=Toy.imaging)
                         Toy.share_pics 64 65 Toy.share)) =
  network_mode_line (P:=Toy.windows) Toy.share_pics
    :: (results (run_events (main (P:=Toy.windows) (I:=Toy.imaging)
                               Toy.share_pics 64 65 Toy.share))).*2
    ++ [elapsed_line (P:=Toy.windows)].
Proof.
  apply (run_prints_mode_results_elapsed (P:=Toy.windows) (I:=Toy.imaging)
           Toy.share Toy.share_pics 64 65);
    vm_compute; (reflexivity || discriminate).
Defined.

(** X10.  When every eligible file fails before line 74 (it cannot be
    opened, oriented, converted or resized), the run leaves the file system
    exactly as it found it: not even [compressed] is created. *)
Theorem run_of_unreadable_files_changes_nothing {P : Platform} {I : Imaging}
    (σ : fs) (input_dir : Path) (max_side jpeg_quality : Z) :
  (forall p, p ∈ eligible_files σ input_dir -> fails_early σ p max_side) ->
  run_fs (main input_dir max_side jpeg_quality σ) = σ.
Proof.
  intros Hall.
  destruct (Path_exists σ input_dir) eqn:Hex;
    [destruct (Path_is_dir σ input_dir) eqn:Hdir|];
    [|by rewrite main_not_found by auto..].
  destruct (decide (eligible_files σ input_dir = [])) as [E|E];
    [by rewrite main_no_images|].
  destruct (is_network_path input_dir) eqn:Hnet.
  - rewrite main_network by done. cbn [run_fs].
    rewrite <- (proj1 (collect_sequential _ _ _ _ _)).
    apply collect_all_fail_early.
    intros t (p & -> & Hp)%list_elem_of_fmap. by apply Hall.
  - rewrite main_local by done. cbn [run_fs].
    apply collect_all_fail_early. intros t. rewrite as_completed_perm.
    intros (p & -> & Hp)%list_elem_of_fmap. by apply Hall.
Qed.

Lemma run_of_unreadable_files_changes_nothing_witness :
  run_fs (main (P:=Toy.posix) (I:=Toy.imaging) Toy.pics 1280 65 Toy.only_bad)
  = Toy.only_bad.
Proof.
  apply (run_of_unreadable_files_changes_nothing (P:=Toy.posix) (I:=Toy.imaging)
           Toy.only_bad Toy.pics 1280 65).
  intros p Hp.
  assert (p = Toy.bad_bmp) as ->.
  { revert Hp. vm_compute. intros Hp.
    inversion Hp as [|? ? ? Hp']; [reflexivity|inversion Hp']. }
  exists (Exn "UnidentifiedImageError" "cannot identify image file").
  left. vm_compute. reflexivity.
Defined.


(** ** More on names, extensions and destinations *)

Section more_name_facts.



Lemma length_string_app (s t : string) :
  String.length (s +:+ t) = (String.length s + String.length t)%nat.
Proof.
  induction s as [|c s IH]; [done|].
  change (String c s +:+ t) with (String c (s +:+ t)). cbn. by rewrite IH.
Qed.

Lemma substring_app_l (s t : string) : substring 0 (String.length s) (s +:+ t) = s.
Proof.
  induction s as [|c s IH]; [by destruct t|].
  change (String c s +:+ t) with (String c (s +:+ t)). cbn. by rewrite IH.
Qed.

Lemma substring_app_r (s t : string) :
  substring (String.length s) (String.length t) (s +:+ t) = t.
Proof.
  induction s as [|c s IH]; [apply substring_all|].
  change (String c s +:+ t) with (String c (s +:+ t)). cbn. exact IH.
Qed.

Lemma rfind_dot_from_dotless i s found :
  dotless s = true -> rfind_dot_from i s found = found.
Proof.
  revert i. induction s as [|c s IH]; intros i; [done|].
  cbn. intros [Hc Hs]%andb_true_iff.
  destruct (Ascii.eqb c "."); [done|]. by apply IH.
Qed.

Lemma rfind_dot_from_app i s rest found :
  dotless rest = true ->
  rfind_dot_from i (s +:+ String "." rest) found = Some (i + String.length s)%nat.
Proof.
  intros Hrest. revert i found. induction s as [|c s IH]; intros i found.
  - change ("" +:+ String "." rest) with (String "." rest). cbn.
    rewrite rfind_dot_from_dotless by done. f_equal. lia.
  - change (String c s +:+ String "." rest) with (String c (s +:+ String "." rest)).
    cbn [rfind_dot_from String.length]. rewrite IH. f_equal. lia.
Qed.

(** Where pathlib splits a name that ends in a dot and a dotless, non-empty
    rest. *)
Lemma split_point_app stem rest :
  stem <> ""%string -> rest <> ""%string -> dotless rest = true ->
  split_point (stem +:+ String "." rest) = Some (String.length stem).
Proof.
  intros Hstem Hrest Hdot. unfold split_point, rfind_dot.
  rewrite rfind_dot_from_app by done. rewrite length_string_app.
  cbn [String.length Nat.add].
  assert (0 < String.length stem)%nat by (destruct stem; [done|cbn; lia]).
  assert (0 < String.length rest)%nat by (destruct rest; [done|cbn; lia]).
  replace (0 <? String.length stem)%nat with true
    by (symmetry; apply Nat.ltb_lt; lia).
  replace (String.length stem <?
           String.length stem + S (String.length rest) - 1)%nat with true
    by (symmetry; apply Nat.ltb_lt; lia).
  done.
Qed.

Lemma name_suffix_app stem rest :
  stem <> ""%string -> rest <> ""%string -> dotless rest = true ->
  name_suffix (stem +:+ String "." rest) = String "." rest /\
  name_stem (stem +:+ String "." rest) = stem.
Proof.
  intros Hstem Hrest Hdot. unfold name_suffix, name_stem.
  rewrite split_point_app by done. split; [|apply substring_app_l].
  rewrite length_string_app.
  replace (String.length stem + String.length (String "." rest) - String.length stem)%nat
    with (String.length (String "." rest)) by lia.
  apply substring_app_r.
Qed.

Lemma ascii_lower_dot (c : ascii) : Ascii.eqb (ascii_lower c) "." = Ascii.eqb c ".".
Proof. by destruct c as [[] [] [] [] [] [] [] []]. Qed.

Lemma dotless_lower (s : string) : dotless (lower s) = dotless s.
Proof.
  induction s as [|c s IH]; [done|]. cbn. by rewrite ascii_lower_dot, IH.
Qed.

(** Every listed extension, in any letter case, is a dot and a dotless,
    non-empty rest. *)
Lemma exts_shape (ext : string) :
  lower ext ∈ exts ->
  exists rest, ext = String "." rest /\ rest <> ""%string /\ dotless rest = true.
Proof.
  destruct ext as [|c rest]; unfold exts; cbn [lower].
  { rewrite !elem_of_cons, elem_of_nil. intros Hin.
    repeat (destruct Hin as [Hin|Hin]; [discriminate|]). done. }
  intros Hin. exists rest.
  assert (Ascii.eqb (ascii_lower c) "." = true /\
          lower rest <> ""%string /\ dotless (lower rest) = true) as (Hc & Hne & Hdot).
  { rewrite !elem_of_cons, elem_of_nil in Hin.
    repeat (destruct Hin as [Hin|Hin]; [injection Hin as -> ->; done|]). done. }
  rewrite ascii_lower_dot in Hc. apply Ascii.eqb_eq in Hc as ->.
  rewrite dotless_lower in Hdot. split; [done|]. split; [|done].
  by intros ->.
Qed.

(** The dot at which pathlib splits is neither the first nor the last
    character of the name. *)
Lemma split_point_inside name i :
  split_point name = Some i -> (0 < i < String.length name - 1)%nat.
Proof.
  unfold split_point. destruct (rfind_dot name) as [j|]; [|done].
  destruct (0 <? j)%nat eqn:H0; [|done].
  destruct (j <? String.length name - 1)%nat eqn:H1; [|done].
  intros [= <-]. apply Nat.ltb_lt in H0, H1. lia.
Qed.

Lemma name_suffix_stem_nonempty name :
  name_suffix name <> ""%string -> name_stem name <> ""%string.
Proof.
  unfold name_suffix, name_stem.
  destruct (split_point name) as [i|] eqn:Hsplit; [|done].
  apply split_point_inside in Hsplit. intros _.
  destruct name as [|c name]; [cbn in Hsplit; lia|].
  destruct i as [|i]; [lia|]. done.
Qed.

(** Names that pathlib gives no suffix. *)
Lemma name_suffix_none name :
  dotless name = true \/
  (exists rest, name = String "." rest /\ dotless rest = true) \/
  (exists s, name = s +:+ ".") ->
  name_suffix name = ""%string.
Proof.
  unfold name_suffix, split_point, rfind_dot.
  intros [Hdot|[(rest & -> & Hdot)|(s & ->)]].
  - by rewrite rfind_dot_from_dotless.
  - cbn. by rewrite rfind_dot_from_dotless.
  - rewrite rfind_dot_from_app by done. rewrite length_string_app.
    cbn [String.length Nat.add].
    replace (String.length s <? String.length s + 1 - 1)%nat with false
      by (symmetry; apply Nat.ltb_ge; lia).
    by rewrite andb_false_r.
Qed.

End more_name_facts.


(** X13.  Which entries line 103 keeps: the regular files whose name is a
    non-empty stem followed by one of the listed extensions in any letter
    case.  Stem and suffix of such a name are that stem and that extension,
    dots inside the stem notwithstanding. *)
Theorem eligible_iff_listed_extension (σ : fs) (p : Path) :
  (eligible σ p = true <->
   Path_is_file σ p = true /\
   exists stem ext,
     Path_name p = stem +:+ ext /\ stem <> ""%string /\ lower ext ∈ exts) /\
  (forall stem ext,
     Path_name p = stem +:+ ext -> stem <> ""%string -> lower ext ∈ exts ->
     Path_stem p = stem /\ Path_suffix p = ext).
Proof.
  assert (forall stem ext,
     Path_name p = stem +:+ ext -> stem <> ""%string -> lower ext ∈ exts ->
     Path_stem p = stem /\ Path_suffix p = ext) as Hsplit.
  { intros stem ext Hname Hstem (rest & -> & Hrest & Hdot)%exts_shape.
    unfold Path_stem, Path_suffix. rewrite Hname.
    by destruct (name_suffix_app stem rest Hstem Hrest Hdot) as [-> ->]. }
  split; [|done]. unfold eligible.
  rewrite andb_true_iff, bool_decide_eq_true. split.
  - intros [Hext Hfile]. split; [done|].
    exists (Path_stem p), (Path_suffix p). split; [|split; [|done]].
    + symmetry. apply stem_suffix.
    + apply name_suffix_stem_nonempty. intros Hnil.
      unfold Path_suffix in Hext. rewrite Hnil in Hext.
      unfold exts in Hext. cbn in Hext.
      rewrite !elem_of_cons, elem_of_nil in Hext.
      repeat (destruct Hext as [Hext|Hext]; [discriminate|]). done.
  - intros (Hfile & stem & ext & Hname & Hstem & Hext). split; [|done].
    by destruct (Hsplit stem ext Hname Hstem Hext) as [_ ->].
Qed.

(** X14.  A name without a dot, a name whose only dot is its first
    character, and a name that ends in a dot have no suffix for pathlib:
    such entries ([README], [.jpg], [photo.]) are never processed. *)
Theorem suffixless_name_is_not_eligible (σ : fs) (dir : Path) (name : string) :
  dotless name = true \/
  (exists rest, name = String "." rest /\ dotless rest = true) \/
  (exists s, name = s +:+ ".") ->
  eligible σ (dir // name) = false.
Proof.
  intros Hname. unfold eligible, Path_suffix, Path_name, joinpath.
  rewrite last_last, (name_suffix_none name Hname). done.
Qed.

Lemma suffixless_name_is_not_eligible_witness :
  eligible Toy.folder (Toy.pics // ".jpg") = false.
Proof.
  apply (suffixless_name_is_not_eligible Toy.folder Toy.pics ".jpg").
  right; left. exists "jpg"%string. split; reflexivity.
Defined.
